(** * electroninserts: the spline insert-factor model and its deformability gate

    A shallow embedding of [src/electroninserts/electroninserts.py].

    - Numbers are IEEE-754 binary64 values ([spec_float] of the Standard
      Library, precision 53, maximal exponent 1024), with the not-a-number
      value that the gate writes into its result.
    - numpy arrays are objects in a store; a Python name holds either an
      immutable scalar or the address of an array.  Every numpy call that
      builds an array allocates a new object; the item assignment of line 205
      writes in place.
    - A Python exception is an error result carried through a state and error
      monad.
    - scipy's [SmoothBivariateSpline] is not part of the repository: the fit
      and the point evaluation of a fitted surface are parameters of the
      model.
    - The file as it stands is not accepted by the Python compiler: line 161
      ends the outer [for] clause of a list comprehension with a colon.  The
      functions are given the meaning their text has without that colon.
      Names that are read but bound nowhere ([initial_fit] at lines 98-99,
      [dims] at line 164) raise [NameError], as they do in Python. *)

From Stdlib Require Import String ZArith Bool Arith Lia List.
From Stdlib Require Import Floats.SpecFloat.
Import ListNotations.

Set Implicit Arguments.

(** ** binary64 numbers *)

Module F64.

Definition float := spec_float.

Definition prec : Z := 53.
Definition emax : Z := 1024.

Definition add : float -> float -> float := SFadd prec emax.
Definition sub : float -> float -> float := SFsub prec emax.
Definition mul : float -> float -> float := SFmul prec emax.
Definition div : float -> float -> float := SFdiv prec emax.

Definition ltb : float -> float -> bool := SFltb.
Definition leb : float -> float -> bool := SFleb.

Definition nan : float := S754_nan.

Definition is_nan (x : float) : bool :=
  match x with S754_nan => true | _ => false end.

(** Neither an infinity nor not-a-number. *)
Definition is_finite (x : float) : bool :=
  match x with
  | S754_zero _ | S754_finite _ _ _ => true
  | S754_infinity _ | S754_nan => false
  end.

(** The literals of the source, rounded to binary64:
    [0.02 = 0x3F947AE147AE147B], [0.5], [100]. *)
Definition lit_0_02 : float := S754_finite false 5764607523034235 (-58).
Definition lit_0_5 : float := S754_finite false 4503599627370496 (-53).
Definition lit_100 : float := S754_finite false 7036874417766400 (-46).

(** Small integers as binary64 values, for examples. *)
Definition of_Z (z : Z) : float := binary_normalize prec emax z 0 false.

End F64.

Import F64.

(** ** Exceptions *)

Inductive exn : Type :=
| NameError (name : string)
| ValueError
| IndexError
| TypeError
| AssertionError
| LibraryError (ier : Z)   (* raised inside the spline library *)
| BadAddress.              (* an address outside the store; no Python value is one *)

Inductive result (A : Type) : Type :=
| Ok (a : A)
| Raise (e : exn).

Arguments Ok {A} a.
Arguments Raise {A} e.

(** ** Arrays of rank at most two *)

Inductive nd (A : Type) : Type :=
| Scalar (x : A)                                (* shape ()           *)
| Vector (xs : list A)                          (* shape (n,)         *)
| Matrix (rows cols : nat) (cells : list A).    (* shape (rows, cols), row-major *)

Arguments Scalar {A} x.
Arguments Vector {A} xs.
Arguments Matrix {A} rows cols cells.

Definition ndarray := nd float.

Section Nd.
Context {A : Type}.

(** [np.shape] *)
Definition shape (a : nd A) : list nat :=
  match a with
  | Scalar _ => []
  | Vector xs => [length xs]
  | Matrix r c _ => [r; c]
  end.

(** [np.ravel]: the elements in row-major order. *)
Definition ravel (a : nd A) : list A :=
  match a with
  | Scalar x => [x]
  | Vector xs => xs
  | Matrix _ _ cells => cells
  end.

(** The extents of an array seen as a matrix, as broadcasting aligns them. *)
Definition extents (a : nd A) : nat * nat :=
  match a with
  | Scalar _ => (1, 1)
  | Vector xs => (1, length xs)
  | Matrix r c _ => (r, c)
  end.

(** Element [(i, j)] of an array stretched along its axes of extent one. *)
Definition stretched (d : A) (a : nd A) (i j : nat) : A :=
  let '(r, c) := extents a in
  nth ((if r =? 1 then 0 else i) * c + (if c =? 1 then 0 else j)) (ravel a) d.

(** An array of the given rank and extents. *)
Definition of_cells (rank r c : nat) (d : A) (cells : list A) : nd A :=
  match rank with
  | 0 => Scalar (hd d cells)
  | 1 => Vector cells
  | _ => Matrix r c cells
  end.

End Nd.

(** Broadcasting of one axis. *)
Definition bdim (m n : nat) : option nat :=
if m =? n then Some m
else if m =? 1 then Some n
else if n =? 1 then Some m
else None.

(** An element-wise binary operation under numpy's broadcasting rule. *)
Definition broadcast2 {A B C : Type} (da : A) (db : B) (dc : C)
  (f : A -> B -> C) (a : nd A) (b : nd B) : result (nd C) :=
let '(r1, c1) := extents a in
let '(r2, c2) := extents b in
match bdim r1 r2, bdim c1 c2 with
| Some r, Some c =>
    Ok (of_cells (Nat.max (length (shape a)) (length (shape b))) r c dc
          (flat_map (fun i =>
             map (fun j => f (stretched da a i j) (stretched db b i j))
                 (seq 0 c))
             (seq 0 r)))
| _, _ => Raise ValueError
end.

Definition nd_map {A B : Type} (f : A -> B) (a : nd A) : nd B :=
match a with
| Scalar x => Scalar (f x)
| Vector xs => Vector (map f xs)
| Matrix r c cells => Matrix r c (map f cells)
end.

(** ** Reductions *)

(** [np.minimum] and [np.maximum] of two numbers: not-a-number propagates. *)
Definition np_minimum (a b : float) : float :=
if is_nan a then a else if ltb a b then a else b.

Definition np_maximum (a b : float) : float :=
if is_nan a then a else if ltb b a then a else b.

(** [np.min] and [np.max] over the elements of an array; an empty array has
  no minimum. *)
Definition np_reduce (op : float -> float -> float) (xs : list float) : result float :=
match xs with
| [] => Raise ValueError
| x :: rest => Ok (fold_left op rest x)
end.

Definition np_min_list : list float -> result float := np_reduce np_minimum.
Definition np_max_list : list float -> result float := np_reduce np_maximum.

(** Python's built-in [min] and [max] over a sequence: the first item is
  kept until an item compares strictly below (above) it. *)
Definition py_min_step (m x : float) : float := if ltb x m then x else m.
Definition py_max_step (m x : float) : float := if ltb m x then x else m.

Definition py_min_list : list float -> result float := np_reduce py_min_step.
Definition py_max_list : list float -> result float := np_reduce py_max_step.

(** ** The store, and computations that read and extend it *)

Definition loc := nat.
Definition heap := list ndarray.

(** What a Python name holds: an immutable number (a numpy scalar), or the
    address of an array object. *)
Inductive pyval : Type :=
| PyFloat (x : float)
| PyArr (l : loc).

Definition M (A : Type) : Type := heap -> result A * heap.

Definition ret {A : Type} (a : A) : M A := fun h => (Ok a, h).

Definition raise {A : Type} (e : exn) : M A := fun h => (Raise e, h).

Definition bind {A B : Type} (m : M A) (k : A -> M B) : M B :=
  fun h =>
    match m h with
    | (Ok a, h') => k a h'
    | (Raise e, h') => (Raise e, h')
    end.

Definition lift {A : Type} (r : result A) : M A := fun h => (r, h).

Declare Scope py_scope.
Delimit Scope py_scope with py.
Notation "x <- m ;; k" := (bind m (fun x => k))
  (at level 61, m at next level, right associativity) : py_scope.
Notation "m ;; k" := (bind m (fun _ => k))
  (at level 61, right associativity) : py_scope.
Open Scope py_scope.

(** A use of a name that neither the function nor the module nor the
    built-ins bind. *)
Definition unbound {A : Type} (name : string) : M A := raise (NameError name).

(** The array a value denotes in a store. *)
Definition content (h : heap) (v : pyval) : option ndarray :=
  match v with
  | PyFloat x => Some (Scalar x)
  | PyArr l => nth_error h l
  end.

Definition read (v : pyval) : M ndarray :=
  fun h =>
    match content h v with
    | Some a => (Ok a, h)
    | None => (Raise BadAddress, h)
    end.

(** A new array object, at the next free address. *)
Definition alloc (a : ndarray) : M pyval :=
  fun h => (Ok (PyArr (length h)), h ++ [a]).

Fixpoint list_set {A : Type} (l : list A) (i : nat) (a : A) : list A :=
  match l, i with
  | [], _ => []
  | _ :: t, 0 => a :: t
  | x :: t, S i' => x :: list_set t i' a
  end.

(** Overwrite the array object at an address. *)
Definition store (l : loc) (a : ndarray) : M unit :=
  fun h =>
    if l <? length h then (Ok tt, list_set h l a) else (Raise BadAddress, h).

(** A list comprehension: the body runs for each item in order and the first
    exception ends it. *)
Fixpoint comprehension {A B : Type} (body : A -> M B) (items : list A) : M (list B) :=
  match items with
  | [] => ret []
  | x :: rest =>
      y <- body x ;;
      ys <- comprehension body rest ;;
      ret (y :: ys)
  end.

(** ** numpy and built-in operations used by the module *)

Definition np_shape (v : pyval) : M (list nat) :=
  a <- read v ;; ret (shape a).

Definition np_min (v : pyval) : M float :=
  a <- read v ;; lift (np_min_list (ravel a)).

Definition np_max (v : pyval) : M float :=
  a <- read v ;; lift (np_max_list (ravel a)).

(** [np.append(arr, values)]: a new rank-1 array of both operands' elements. *)
Definition np_append (arr values : pyval) : M pyval :=
  a <- read arr ;; b <- read values ;; alloc (Vector (ravel a ++ ravel b)).

(** [np.delete(arr, i)]: a new rank-1 array without element [i] of the
    flattened operand. *)
Definition np_delete (arr : pyval) (i : nat) : M pyval :=
  a <- read arr ;;
  if i <? length (ravel a)
  then alloc (Vector (firstn i (ravel a) ++ skipn (S i) (ravel a)))
  else raise IndexError.

(** A number is a numpy scalar: like a rank-0 array it has no length, cannot
    be iterated and cannot be indexed.

    The built-ins [min] and [max] iterate over their operand.  In this module
    the operand is always the rank-1 result of [np.append]; over a matrix the
    built-ins compare whole rows, which is not modelled further. *)
Definition py_reduce (f : list float -> result float) (v : pyval) : M float :=
  a <- read v ;;
  match a with
  | Scalar _ => raise TypeError
  | Vector xs => lift (f xs)
  | Matrix _ _ _ => raise ValueError
  end.

Definition py_min : pyval -> M float := py_reduce py_min_list.
Definition py_max : pyval -> M float := py_reduce py_max_list.

(** [len(v)] *)
Definition py_len (v : pyval) : M nat :=
  a <- read v ;;
  match a with
  | Scalar _ => raise TypeError
  | Vector xs => ret (length xs)
  | Matrix r _ _ => ret r
  end.

(** [v[i]].  An element of a vector is a number; a row of a matrix is handed
    out as an array object of its own (numpy makes it a view of the matrix;
    this module only reads it). *)
Definition getitem1 (v : pyval) (i : nat) : M pyval :=
  a <- read v ;;
  match a with
  | Scalar _ => raise IndexError
  | Vector xs =>
      match nth_error xs i with
      | Some x => ret (PyFloat x)
      | None => raise IndexError
      end
  | Matrix r c cells =>
      if i <? r then alloc (Vector (firstn c (skipn (i * c) cells)))
      else raise IndexError
  end.

(** [v[i, j]] *)
Definition getitem2 (v : pyval) (i j : nat) : M pyval :=
  a <- read v ;;
  match a with
  | Matrix r c cells =>
      if (i <? r) && (j <? c)
      then match nth_error cells (i * c + j) with
           | Some x => ret (PyFloat x)
           | None => raise IndexError
           end
      else raise IndexError
  | _ => raise IndexError
  end.

(** [np.array] of a list of numbers, and of a list of equally long lists of
    numbers.  An empty outer list gives the empty rank-1 array. *)
Definition np_array1 (xs : list float) : M pyval := alloc (Vector xs).

Definition np_array2 (xss : list (list float)) : M pyval :=
  match xss with
  | [] => alloc (Vector [])
  | row :: _ => alloc (Matrix (length xss) (length row) (concat xss))
  end.

(** The array numpy makes of a Python list of array objects when the list is
    an operand of an arithmetic operator. *)
Definition asarray (vs : list pyval) : M ndarray :=
  items <- comprehension read vs ;;
  match items with
  | [] => ret (Vector [])
  | Scalar _ :: _ =>
      if forallb (fun a => match a with Scalar _ => true | _ => false end) items
      then ret (Vector (flat_map ravel items))
      else raise ValueError
  | Vector xs :: _ =>
      if forallb (fun a => match a with
                           | Vector ys => length ys =? length xs
                           | _ => false
                           end) items
      then ret (Matrix (length items) (length xs) (flat_map ravel items))
      else raise ValueError
  | Matrix _ _ _ :: _ => raise ValueError
  end.

(** An arithmetic operator on arrays: element-wise with broadcasting.  A
    rank-0 result is a number, any other a new array object. *)
Definition arith (f : float -> float -> float) (ma mb : M ndarray) : M pyval :=
  a <- ma ;;
  b <- mb ;;
  r <- lift (broadcast2 nan nan nan f a b) ;;
  match r with
  | Scalar z => ret (PyFloat z)
  | _ => alloc r
  end.

(** [v > c]: the truth values, in the shape of [v]. *)
Definition np_gt (v : pyval) (c : float) : M (nd bool) :=
  a <- read v ;; ret (nd_map (fun x => ltb c x) a).

Fixpoint shape_eqb (s t : list nat) : bool :=
  match s, t with
  | [], [] => true
  | m :: s', n :: t' => (m =? n) && shape_eqb s' t'
  | _, _ => false
  end.

(** The array after [a[mask] = v]. *)
Definition assign_where (mask : nd bool) (v : float) (a : ndarray) : result ndarray :=
  let put := fun bx : bool * float => if fst bx then v else snd bx in
  match mask, a with
  | Scalar b, _ => Ok (if b then nd_map (fun _ => v) a else a)
  | Vector bs, Vector xs =>
      if length bs =? length xs then Ok (Vector (map put (combine bs xs)))
      else Raise IndexError
  | Vector bs, Matrix r c cells =>
      if length bs =? r
      then Ok (Matrix r c
                 (map put (combine (flat_map (fun b => repeat b c) bs) cells)))
      else Raise IndexError
  | Matrix r' c' bs, Matrix r c cells =>
      if (r' =? r) && (c' =? c) then Ok (Matrix r c (map put (combine bs cells)))
      else Raise IndexError
  | _, _ => Raise IndexError
  end.

(** [target[mask] = v]: written into the array object [target] names. *)
Definition setitem_mask (target : pyval) (mask : nd bool) (v : float) : M unit :=
  match target with
  | PyFloat _ => raise TypeError
  | PyArr l =>
      a <- read target ;;
      a' <- lift (assign_where mask v a) ;;
      store l a'
  end.

(** [assert c] *)
Definition py_assert (c : bool) : M unit :=
  if c then ret tt else raise AssertionError.

(** ** The module *)

(** [bbox = [xb, xe, yb, ye]] *)
Definition bbox := (float * float * float * float)%type.

Section Electroninserts.

(** scipy's [SmoothBivariateSpline(x, y, z, bbox=..., kx=..., ky=...)]: the
    fit of a surface, which fails on data it cannot fit, and the value of a
    fitted surface at a point. *)
Variable spline : Type.
Variable fit :
  ndarray -> ndarray -> ndarray -> option bbox -> nat -> nat -> result spline.
Variable surface : spline -> float -> float -> float.

Definition SmoothBivariateSpline (x y z : pyval) (box : option bbox)
    (kx ky : nat) : M spline :=
  a <- read x ;; b <- read y ;; c <- read z ;; lift (fit a b c box kx ky).

(** [spline.ev(xi, yi)]: the surface at the broadcast points, in a new array. *)
Definition ev (s : spline) (xi yi : pyval) : M pyval :=
  a <- read xi ;;
  b <- read yi ;;
  r <- lift (broadcast2 nan nan nan (surface s) a b) ;;
  alloc r.

(** Lines 50-54 of [spline_model]. *)
Definition spline_model_bbox
    (width_test ratio_perim_area_test width_data ratio_perim_area_data : pyval)
    : M bbox :=
  wd0 <- np_min width_data ;; wt0 <- np_min width_test ;;
  xb <- lift (np_min_list [wd0; wt0]) ;;
  wd1 <- np_max width_data ;; wt1 <- np_max width_test ;;
  xe <- lift (np_max_list [wd1; wt1]) ;;
  rd0 <- np_min ratio_perim_area_data ;; rt0 <- np_min ratio_perim_area_test ;;
  yb <- lift (np_min_list [rd0; rt0]) ;;
  rd1 <- np_max ratio_perim_area_data ;; rt1 <- np_max ratio_perim_area_test ;;
  ye <- lift (np_max_list [rd1; rt1]) ;;
  ret (xb, xe, yb, ye).

Definition spline_model
    (width_test ratio_perim_area_test
     width_data ratio_perim_area_data factor_data : pyval) : M pyval :=
  box <- spline_model_bbox width_test ratio_perim_area_test
                           width_data ratio_perim_area_data ;;
  s <- SmoothBivariateSpline
         width_data ratio_perim_area_data factor_data (Some box) 2 1 ;;
  ev s width_test ratio_perim_area_test.

(** Lines 91-93 of [_single_calculate_deformability]. *)
Definition single_bbox (adjusted_x_data adjusted_y_data : pyval) : M bbox :=
  xb <- py_min adjusted_x_data ;; xe <- py_max adjusted_x_data ;;
  yb <- py_min adjusted_y_data ;; ye <- py_max adjusted_y_data ;;
  ret (xb, xe, yb, ye).

(** Line 98 reads [initial_fit], a name bound nowhere: the value fitted at lines 95-96
    is called [initial_model]. *)
Definition _single_calculate_deformability
    (x_test y_test x_data y_data z_data : pyval) : M float :=
  let deviation := PyFloat lit_0_02 in
  adjusted_x_data <- np_append x_data x_test ;;
  adjusted_y_data <- np_append y_data y_test ;;
  box <- single_bbox adjusted_x_data adjusted_y_data ;;
  s0 <- SmoothBivariateSpline x_data y_data z_data (Some box) 2 1 ;;
  initial_model <- ev s0 x_test y_test ;;
  initial_fit <- unbound "initial_fit" ;;
  pos_z <- arith add (read initial_fit) (read deviation) ;;
  pos_adjusted_z_data <- np_append z_data pos_z ;;
  initial_fit' <- unbound "initial_fit" ;;
  neg_z <- arith sub (read initial_fit') (read deviation) ;;
  neg_adjusted_z_data <- np_append z_data neg_z ;;
  s1 <- SmoothBivariateSpline
          adjusted_x_data adjusted_y_data pos_adjusted_z_data None 2 1 ;;
  pos_adjusted_model <- ev s1 x_test y_test ;;
  s2 <- SmoothBivariateSpline
          adjusted_x_data adjusted_y_data neg_adjusted_z_data None 2 1 ;;
  neg_adjusted_model <- ev s2 x_test y_test ;;
  pos_d <- arith sub (read pos_adjusted_model) (read initial_model) ;;
  deformability_from_pos_adjustment <- arith div (read pos_d) (read deviation) ;;
  neg_d <- arith sub (read initial_model) (read neg_adjusted_model) ;;
  deformability_from_neg_adjustment <- arith div (read neg_d) (read deviation) ;;
  both <- asarray [deformability_from_pos_adjustment;
                   deformability_from_neg_adjustment] ;;
  lift (np_max_list (ravel both)).

(** Lines 143-162 of [calculate_deformability]: the value of [deformability]
    before the assertion, for any single-point routine bound to the name
    [_single_calculate_deformability].  The comprehension of lines 157-162 is
    read without the colon that ends line 161, which the Python compiler
    rejects: [i] runs over [dim[0]] in the inner list and [j] over [dim[1]]
    in the outer one. *)
Definition deformability_by_shape
    (single : pyval -> pyval -> pyval -> pyval -> pyval -> M float)
    (x_test y_test x_data y_data z_data : pyval) : M pyval :=
  dim <- np_shape x_test ;;
  match dim with
  | [] =>
      d <- single x_test y_test x_data y_data z_data ;;
      ret (PyFloat d)
  | [n] =>
      ds <- comprehension
              (fun i =>
                 xi <- getitem1 x_test i ;;
                 yi <- getitem1 y_test i ;;
                 single xi yi x_data y_data z_data)
              (seq 0 n) ;;
      np_array1 ds
  | n0 :: n1 :: _ =>
      dss <- comprehension
               (fun j =>
                  comprehension
                    (fun i =>
                       xij <- getitem2 x_test i j ;;
                       yij <- getitem2 y_test i j ;;
                       single xij yij x_data y_data z_data)
                    (seq 0 n0))
               (seq 0 n1) ;;
      np_array2 dss
  end.

(** Line 164 reads [dims]; the shape taken at line 143 is called [dim]. *)
Definition calculate_deformability_with
    (single : pyval -> pyval -> pyval -> pyval -> pyval -> M float)
    (x_test y_test x_data y_data z_data : pyval) : M pyval :=
  deformability <- deformability_by_shape single
                     x_test y_test x_data y_data z_data ;;
  got <- np_shape deformability ;;
  dims <- unbound "dims" ;;
  py_assert (shape_eqb got dims) ;;
  ret deformability.

Definition calculate_deformability : pyval -> pyval -> pyval -> pyval -> pyval -> M pyval :=
  calculate_deformability_with _single_calculate_deformability.

Definition spline_model_with_deformability
    (width_test ratio_perim_area_test
     width_data ratio_perim_area_data factor_data : pyval) : M pyval :=
  deformability <- calculate_deformability
                     width_test ratio_perim_area_test
                     width_data ratio_perim_area_data factor_data ;;
  model_factor <- spline_model
                    width_test ratio_perim_area_test
                    width_data ratio_perim_area_data factor_data ;;
  mask <- np_gt deformability lit_0_5 ;;
  setitem_mask model_factor mask nan ;;
  ret model_factor.

Definition calculate_percent_prediction_differences
    (width_data ratio_perim_area_data factor_data : pyval) : M pyval :=
  n <- py_len width_data ;;
  predictions <- comprehension
                   (fun i =>
                      wi <- getitem1 width_data i ;;
                      ri <- getitem1 ratio_perim_area_data i ;;
                      wd <- np_delete width_data i ;;
                      rd <- np_delete ratio_perim_area_data i ;;
                      fd <- np_delete factor_data i ;;
                      spline_model_with_deformability wi ri wd rd fd)
                   (seq 0 n) ;;
  diff <- arith sub (read factor_data) (asarray predictions) ;;
  scaled <- arith mul (ret (Scalar lit_100)) (read diff) ;;
  arith div (read scaled) (read factor_data).

End Electroninserts.

(** ** A stand-in for the spline library

    Concrete runs need some fitter.  This one fits the constant surface
    through the first factor and fails on an empty data set. *)

Definition flat_fit (x y z : ndarray) (box : option bbox) (kx ky : nat)
    : result float :=
  match ravel z with
  | [] => Raise (LibraryError 10)
  | c :: _ => Ok c
  end.

Definition flat_surface (s : float) (x y : float) : float := s.

(** The calibration set of the specification's example scenario, a vector
    query and the same query as a 1 x 2 grid. *)
Definition example_widths : list float :=
  map of_Z [2; 4; 6; 8; 10; 12; 14; 16]%Z.
Definition example_ratios : list float :=
  map of_Z [1; 2; 3; 4; 5; 6; 7; 8]%Z.
Definition example_factors : list float :=
  map of_Z [1; 1; 1; 1; 1; 1; 1; 1]%Z.
Definition factors_with_zero : list float :=
  map of_Z [1; 1; 0; 1; 1; 1; 1; 1]%Z.
Definition query_widths : list float := map of_Z [3; 5]%Z.
Definition query_ratios : list float := map of_Z [2; 2]%Z.

Definition example_store : heap :=
  [ Vector example_widths;          (* 0 *)
    Vector example_ratios;          (* 1 *)
    Vector example_factors;         (* 2 *)
    Vector query_widths;            (* 3 *)
    Vector query_ratios;            (* 4 *)
    Matrix 1 2 query_widths;        (* 5 *)
    Matrix 1 2 query_ratios;        (* 6 *)
    Vector factors_with_zero ].     (* 7 *)

(** The same arrays, each one address further. *)
Definition shifted_store : heap := Vector [] :: example_store.

(** A store with one empty array, to stand for an empty calibration set. *)
Definition empty_store : heap := [Vector []].

(** A single-point routine that returns a function of the test point and
    touches nothing: with it in the place of
    [_single_calculate_deformability], the array that the loops of
    [calculate_deformability] build can be read off. *)
Definition pointwise (f : float -> float -> float)
    (x_test y_test x_data y_data z_data : pyval) : M float :=
  a <- read x_test ;;
  b <- read y_test ;;
  ret (f (hd nan (ravel a)) (hd nan (ravel b))).

(** The cells of a [rows x cols] grid listed column by column. *)
Definition by_columns (rows cols : nat) (g : nat -> nat -> float)
    : list (list float) :=
  map (fun j => map (fun i => g i j) (seq 0 rows)) (seq 0 cols).

(** The number of columns broadcasting sees in an array. *)
Definition cols {A : Type} (a : nd A) : nat := snd (extents a).

(** Line 220 at one position. *)
Definition percent_difference (factor prediction : float) : float :=
  div (mul lit_100 (sub factor prediction)) factor.

(** ** Vocabulary of the properties *)

(** A computation that ends in an exception from every store. *)
Definition never_returns {A : Type} (m : M A) : Prop :=
  forall h, exists e h', m h = (Raise e, h').

(** [h'] has every object of [h], unchanged, and possibly more. *)
Definition extends (h h' : heap) : Prop := exists t, h' = h ++ t.

(** A computation that leaves the store as it found it. *)
Definition readonly {A : Type} (m : M A) : Prop := forall h, snd (m h) = h.

(** A computation that changes no object of the store it is given. *)
Definition grows {A : Type} (m : M A) : Prop :=
  forall h, extends h (snd (m h)).

(** Two values, each in its store, denote the same array. *)
Definition agree (h1 h2 : heap) (v1 v2 : pyval) : Prop :=
  exists a, content h1 v1 = Some a /\ content h2 v2 = Some a.

(** Two runs end alike: in the same exception, or in values related by [R]
    in the final stores. *)
Definition same_outcome {A : Type} (R : heap -> heap -> A -> A -> Prop)
    (o1 o2 : result A * heap) : Prop :=
  match fst o1, fst o2 with
  | Ok a1, Ok a2 => R (snd o1) (snd o2) a1 a2
  | Raise e1, Raise e2 => e1 = e2
  | _, _ => False
  end.

(** [m1] from [h1] and [m2] from [h2] end alike, and neither changes an
    object that was in its store. *)
Definition sim {A : Type} (R : heap -> heap -> A -> A -> Prop)
    (m1 m2 : M A) (h1 h2 : heap) : Prop :=
  same_outcome R (m1 h1) (m2 h2)
  /\ extends h1 (snd (m1 h1)) /\ extends h2 (snd (m2 h2)).

Definition same {A : Type} : heap -> heap -> A -> A -> Prop :=
  fun _ _ a b => a = b.

(** Order on numbers. *)
Definition nan_free (xs : list float) : Prop :=
  Forall (fun x => is_nan x = false) xs.

(** [above m x]: [x <= m]. *)
Definition above (m x : float) : bool := leb x m.

Definition is_min_of (m : float) (xs : list float) : Prop :=
  In m xs /\ Forall (fun x => leb m x = true) xs.

Definition is_max_of (m : float) (xs : list float) : Prop :=
  In m xs /\ Forall (fun x => above m x = true) xs.

(** A number that is not not-a-number, as a point of [Z * Z * Z] in
    lexicographic order. *)
Definition key (x : float) : Z * Z * Z :=
  match x with
  | S754_infinity true => (-2, 0, 0)
  | S754_finite true m e => (-1, - e, - Zpos m)
  | S754_zero _ | S754_nan => (0, 0, 0)
  | S754_finite false m e => (1, e, Zpos m)
  | S754_infinity false => (2, 0, 0)
  end%Z.

Definition lex_le (p q : Z * Z * Z) : Prop :=
  let '(a1, b1, c1) := p in
  let '(a2, b2, c2) := q in
  (a1 < a2 \/ (a1 = a2 /\ (b1 < b2 \/ (b1 = b2 /\ c1 <= c2))))%Z.

Definition lex_lt (p q : Z * Z * Z) : Prop :=
  let '(a1, b1, c1) := p in
  let '(a2, b2, c2) := q in
  (a1 < a2 \/ (a1 = a2 /\ (b1 < b2 \/ (b1 = b2 /\ c1 < c2))))%Z.


(** A value that is not not-a-number. *)
Definition number (x : float) : bool := negb (is_nan x).

(** The example store with an array of two scores, one on each side of the
    threshold of line 205. *)
Definition scored_store : heap := example_store ++ [Vector [of_Z 0; of_Z 1]].

(** Calibration widths with a missing value, and their ratios. *)
Definition nan_store : heap :=
  [ Vector [of_Z 1; nan; of_Z 3];
    Vector [of_Z 1; of_Z 2; of_Z 3] ].

(** The example store with a query that reaches beyond the calibration data
    on both sides of both axes. *)
Definition wide_widths : list float := map of_Z [1; 20]%Z.
Definition wide_ratios : list float := map of_Z [0; 9]%Z.
Definition wide_store : heap :=
  example_store ++ [Vector wide_widths; Vector wide_ratios].
(** ** The state and error monad *)

Lemma bind_ok {A B : Type} (m : M A) (k : A -> M B) h a h' :
  m h = (Ok a, h') -> bind m k h = k a h'.
Proof. intros E. unfold bind. rewrite E. reflexivity. Qed.
Arguments bind_ok {A B m} k {h a h'} _.

Lemma bind_raise {A B : Type} (m : M A) (k : A -> M B) h e h' :
  m h = (Raise e, h') -> bind m k h = (Raise e, h').
Proof. intros E. unfold bind. rewrite E. reflexivity. Qed.
Arguments bind_raise {A B m} k {h e h'} _.

Lemma bind_ext {A B : Type} (m m' : M A) (k k' : A -> M B) h :
  m h = m' h -> (forall a g, k a g = k' a g) -> bind m k h = bind m' k' h.
Proof.
  intros Em Ek. unfold bind. rewrite Em.
  destruct (m' h) as [[a | e] g]; auto.
Qed.

Lemma never_returns_unbound {A : Type} (name : string) :
  never_returns (@unbound A name).
Proof. intros h. exists (NameError name), h. reflexivity. Qed.

Lemma never_returns_bind_l {A B : Type} (m : M A) (k : A -> M B) :
  never_returns m -> never_returns (bind m k).
Proof.
  intros N h. destruct (N h) as (e & h' & E).
  exists e, h'. now apply bind_raise.
Qed.

Lemma never_returns_bind_r {A B : Type} (m : M A) (k : A -> M B) :
  (forall a, never_returns (k a)) -> never_returns (bind m k).
Proof.
  intros N h. unfold bind.
  destruct (m h) as [[a | e] h'].
  - apply N.
  - now exists e, h'.
Qed.

Lemma comprehension_cons_never_returns {A B : Type} (body : A -> M B) x rest :
  never_returns (body x) -> never_returns (comprehension body (x :: rest)).
Proof. intros N. simpl. now apply never_returns_bind_l. Qed.

Section Raises.

Variable spline : Type.
Variable fit :
  ndarray -> ndarray -> ndarray -> option bbox -> nat -> nat -> result spline.
Variable surface : spline -> float -> float -> float.

Lemma single_never_returns x_test y_test x_data y_data z_data :
  never_returns
    (_single_calculate_deformability fit surface
       x_test y_test x_data y_data z_data).
Proof.
  unfold _single_calculate_deformability.
  do 5 (apply never_returns_bind_r; intro).
  apply never_returns_bind_l, never_returns_unbound.
Qed.

Lemma calculate_deformability_with_never_returns single
    x_test y_test x_data y_data z_data :
  never_returns
    (calculate_deformability_with single x_test y_test x_data y_data z_data).
Proof.
  unfold calculate_deformability_with.
  do 2 (apply never_returns_bind_r; intro).
  apply never_returns_bind_l, never_returns_unbound.
Qed.

Lemma gated_never_returns wt rt wd rd fd :
  never_returns (spline_model_with_deformability fit surface wt rt wd rd fd).
Proof.
  unfold spline_model_with_deformability.
  apply never_returns_bind_l.
  apply calculate_deformability_with_never_returns.
Qed.

End Raises.

(** ** The order on numbers *)

Lemma compare_cont_spec (m n : positive) :
  CompareSpec (Zpos m = Zpos n) (Zpos m < Zpos n)%Z (Zpos n < Zpos m)%Z
    (Pos.compare_cont Eq m n).
Proof.
  change (Pos.compare_cont Eq m n) with (Pos.compare m n).
  destruct (Pos.compare_spec m n); constructor; subst; auto; lia.
Qed.

Lemma leb_key x y :
  is_nan x = false -> is_nan y = false ->
  (leb x y = true <-> lex_le (key x) (key y)).
Proof.
  intros Hx Hy. unfold leb, SFleb, SFcompare.
  destruct x as [sx | sx | | sx mx ex], y as [sy | sy | | sy my ey];
    try discriminate; try destruct sx; try destruct sy; simpl;
    try (split; [ intros _; lia | reflexivity ]);
    try (split; [ discriminate | lia ]).
  - destruct (Z.compare_spec ex ey), (compare_cont_spec mx my); simpl;
      split; try discriminate; try reflexivity; try lia.
  - destruct (Z.compare_spec ex ey), (compare_cont_spec mx my); simpl;
      split; try discriminate; try reflexivity; try lia.
Qed.

Lemma ltb_key x y :
  is_nan x = false -> is_nan y = false ->
  (ltb x y = true <-> lex_lt (key x) (key y)).
Proof.
  intros Hx Hy. unfold ltb, SFltb, SFcompare.
  destruct x as [sx | sx | | sx mx ex], y as [sy | sy | | sy my ey];
    try discriminate; try destruct sx; try destruct sy; simpl;
    try (split; [ intros _; lia | reflexivity ]);
    try (split; [ discriminate | lia ]).
  - destruct (Z.compare_spec ex ey), (compare_cont_spec mx my); simpl;
      split; try discriminate; try reflexivity; try lia.
  - destruct (Z.compare_spec ex ey), (compare_cont_spec mx my); simpl;
      split; try discriminate; try reflexivity; try lia.
Qed.

Lemma leb_refl x : is_nan x = false -> leb x x = true.
Proof.
  intros Hx. apply leb_key; auto.
  unfold lex_le. destruct (key x) as [[a b] c]. lia.
Qed.

Lemma leb_trans x y z :
  is_nan x = false -> is_nan y = false -> is_nan z = false ->
  leb x y = true -> leb y z = true -> leb x z = true.
Proof.
  intros Hx Hy Hz Hxy Hyz.
  apply leb_key in Hxy; auto. apply leb_key in Hyz; auto. apply leb_key; auto.
  unfold lex_le in *.
  destruct (key x) as [[a1 b1] c1], (key y) as [[a2 b2] c2],
           (key z) as [[a3 b3] c3]. lia.
Qed.

Lemma ltb_leb x y :
  is_nan x = false -> is_nan y = false -> ltb x y = true -> leb x y = true.
Proof.
  intros Hx Hy H. apply ltb_key in H; auto. apply leb_key; auto.
  unfold lex_le, lex_lt in *.
  destruct (key x) as [[a1 b1] c1], (key y) as [[a2 b2] c2]. lia.
Qed.

Lemma not_ltb_leb x y :
  is_nan x = false -> is_nan y = false -> ltb x y = false -> leb y x = true.
Proof.
  intros Hx Hy H. apply leb_key; auto.
  assert (N : ~ lex_lt (key x) (key y)).
  { intros L. apply ltb_key in L; auto. congruence. }
  unfold lex_le, lex_lt in *.
  destruct (key x) as [[a1 b1] c1], (key y) as [[a2 b2] c2]. lia.
Qed.

(** ** Minimum and maximum by a left fold *)

Section Selection.

Variable op : float -> float -> float.

(** [op] returns one of its operands, and [below r x] says that result [r]
    is on the wanted side of operand [x]. *)
Variable below : float -> float -> bool.
Hypothesis below_refl : forall x, is_nan x = false -> below x x = true.
Hypothesis below_trans : forall x y z,
  is_nan x = false -> is_nan y = false -> is_nan z = false ->
  below x y = true -> below y z = true -> below x z = true.
Hypothesis op_picks : forall a b,
  is_nan a = false -> is_nan b = false ->
  (op a b = a \/ op a b = b)
  /\ below (op a b) a = true /\ below (op a b) b = true.

Lemma fold_selects rest : forall x,
  nan_free (x :: rest) ->
  In (fold_left op rest x) (x :: rest)
  /\ Forall (fun y => below (fold_left op rest x) y = true) (x :: rest).
Proof.
  induction rest as [| y rest IH]; intros x NF.
  - simpl. split; [ now left | ].
    constructor; [ | constructor ]. apply below_refl. now inversion NF.
  - inversion NF as [| ? ? Nx NF']; subst.
    inversion NF' as [| ? ? Ny NF'']; subst.
    destruct (op_picks _ _ Nx Ny) as (Pick & Bx & By).
    assert (Nop : is_nan (op x y) = false) by (destruct Pick as [-> | ->]; auto).
    destruct (IH (op x y)) as (I & L).
    { constructor; auto. }
    simpl fold_left. set (m := fold_left op rest (op x y)) in *.
    inversion L as [| ? ? Lop Lrest]; subst.
    assert (Nm : is_nan m = false).
    { destruct I as [E | I]; [ now rewrite <- E | ].
      rewrite Forall_forall in NF''. now apply NF''. }
    split.
    + destruct I as [E | I].
      * rewrite <- E. destruct Pick as [-> | ->]; simpl; auto.
      * simpl. auto.
    + constructor; [ | constructor; [ | exact Lrest ] ].
      * apply below_trans with (op x y); auto.
      * apply below_trans with (op x y); auto.
Qed.

Lemma reduce_selects xs :
  xs <> [] -> nan_free xs ->
  exists m, np_reduce op xs = Ok m
            /\ In m xs /\ Forall (fun y => below m y = true) xs.
Proof.
  intros NE NF. destruct xs as [| x rest]; [ congruence | ].
  exists (fold_left op rest x). split; [ reflexivity | ].
  now apply fold_selects.
Qed.

(** The selection among the selections of two lists selects from their
    concatenation. *)
Lemma selects_app a b m xs ys :
  nan_free (xs ++ ys) ->
  In a xs -> Forall (fun y => below a y = true) xs ->
  In b ys -> Forall (fun y => below b y = true) ys ->
  In m [a; b] -> Forall (fun y => below m y = true) [a; b] ->
  In m (xs ++ ys) /\ Forall (fun y => below m y = true) (xs ++ ys).
Proof.
  intros NF Ia La Ib Lb Im Lm.
  unfold nan_free in NF. rewrite Forall_forall in NF.
  assert (Na : is_nan a = false) by (apply NF, in_or_app; auto).
  assert (Nb : is_nan b = false) by (apply NF, in_or_app; auto).
  assert (Nm : is_nan m = false).
  { destruct Im as [<- | [<- | []]]; auto. }
  inversion Lm as [| ? ? Lma Lm']; subst.
  inversion Lm' as [| ? ? Lmb _]; subst.
  split.
  - apply in_or_app. destruct Im as [<- | [<- | []]]; auto.
  - apply Forall_app. split.
    + rewrite Forall_forall in La |- *. intros y Iy.
      apply below_trans with a; auto. apply NF, in_or_app; auto.
    + rewrite Forall_forall in Lb |- *. intros y Iy.
      apply below_trans with b; auto. apply NF, in_or_app; auto.
Qed.

End Selection.

Lemma above_refl x : is_nan x = false -> above x x = true.
Proof. apply leb_refl. Qed.

Lemma above_trans x y z :
  is_nan x = false -> is_nan y = false -> is_nan z = false ->
  above x y = true -> above y z = true -> above x z = true.
Proof. unfold above. intros. apply leb_trans with y; auto. Qed.

Lemma np_minimum_picks a b :
  is_nan a = false -> is_nan b = false ->
  (np_minimum a b = a \/ np_minimum a b = b)
  /\ leb (np_minimum a b) a = true /\ leb (np_minimum a b) b = true.
Proof.
  intros Na Nb. unfold np_minimum. rewrite Na.
  destruct (ltb a b) eqn:L.
  - repeat split; auto using leb_refl, ltb_leb.
  - repeat split; auto using leb_refl, not_ltb_leb.
Qed.

Lemma np_maximum_picks a b :
  is_nan a = false -> is_nan b = false ->
  (np_maximum a b = a \/ np_maximum a b = b)
  /\ above (np_maximum a b) a = true /\ above (np_maximum a b) b = true.
Proof.
  intros Na Nb. unfold np_maximum, above. rewrite Na.
  destruct (ltb b a) eqn:L.
  - repeat split; auto using leb_refl, ltb_leb.
  - repeat split; auto using leb_refl, not_ltb_leb.
Qed.

Lemma py_min_step_picks a b :
  is_nan a = false -> is_nan b = false ->
  (py_min_step a b = a \/ py_min_step a b = b)
  /\ leb (py_min_step a b) a = true /\ leb (py_min_step a b) b = true.
Proof.
  intros Na Nb. unfold py_min_step.
  destruct (ltb b a) eqn:L.
  - repeat split; auto using leb_refl, ltb_leb.
  - repeat split; auto using leb_refl, not_ltb_leb.
Qed.

Lemma py_max_step_picks a b :
  is_nan a = false -> is_nan b = false ->
  (py_max_step a b = a \/ py_max_step a b = b)
  /\ above (py_max_step a b) a = true /\ above (py_max_step a b) b = true.
Proof.
  intros Na Nb. unfold py_max_step, above.
  destruct (ltb a b) eqn:L.
  - repeat split; auto using leb_refl, ltb_leb.
  - repeat split; auto using leb_refl, not_ltb_leb.
Qed.

(** ** Running the primitives *)

Lemma content_app h t v a : content h v = Some a -> content (h ++ t) v = Some a.
Proof.
  destruct v as [x | l]; simpl; auto.
  intros E. rewrite nth_error_app1; auto.
  apply nth_error_Some. congruence.
Qed.
Arguments content_app {h} t {v a} _.

Lemma content_alloc h a : content (h ++ [a]) (PyArr (length h)) = Some a.
Proof. simpl. rewrite nth_error_app2, Nat.sub_diag; auto. Qed.

Lemma read_run h v a : content h v = Some a -> read v h = (Ok a, h).
Proof. intros E. unfold read. now rewrite E. Qed.
Arguments read_run {h v a} _.

Lemma np_min_run h v a :
  content h v = Some a -> np_min v h = (np_min_list (ravel a), h).
Proof. intros E. unfold np_min. now rewrite (bind_ok _ (read_run E)). Qed.
Arguments np_min_run {h v a} _.

Lemma np_max_run h v a :
  content h v = Some a -> np_max v h = (np_max_list (ravel a), h).
Proof. intros E. unfold np_max. now rewrite (bind_ok _ (read_run E)). Qed.
Arguments np_max_run {h v a} _.

Lemma np_append_run h arr values a b :
  content h arr = Some a -> content h values = Some b ->
  np_append arr values h
  = (Ok (PyArr (length h)), h ++ [Vector (ravel a ++ ravel b)]).
Proof.
  intros Ea Eb. unfold np_append.
  rewrite (bind_ok _ (read_run Ea)), (bind_ok _ (read_run Eb)).
  reflexivity.
Qed.
Arguments np_append_run {h arr values a b} _ _.

Lemma py_reduce_run f h v xs :
  content h v = Some (Vector xs) -> py_reduce f v h = (f xs, h).
Proof. intros E. unfold py_reduce. now rewrite (bind_ok _ (read_run E)). Qed.
Arguments py_reduce_run f {h v xs} _.

Lemma fit_run {spline : Type}
    (fit : ndarray -> ndarray -> ndarray -> option bbox -> nat -> nat
           -> result spline) h x y z a b c box kx ky :
  content h x = Some a -> content h y = Some b -> content h z = Some c ->
  SmoothBivariateSpline fit x y z box kx ky h = (fit a b c box kx ky, h).
Proof.
  intros Ea Eb Ec. unfold SmoothBivariateSpline.
  rewrite (bind_ok _ (read_run Ea)), (bind_ok _ (read_run Eb)),
          (bind_ok _ (read_run Ec)).
  reflexivity.
Qed.
Arguments fit_run {spline} fit {h x y z a b c} box kx ky _ _ _.

(** ** The bounding box *)

Lemma np_min_of xs :
  xs <> [] -> nan_free xs -> exists m, np_min_list xs = Ok m /\ is_min_of m xs.
Proof.
  exact (reduce_selects np_minimum leb leb_refl leb_trans np_minimum_picks (xs := xs)).
Qed.

Lemma np_max_of xs :
  xs <> [] -> nan_free xs -> exists m, np_max_list xs = Ok m /\ is_max_of m xs.
Proof.
  exact (reduce_selects np_maximum above above_refl above_trans np_maximum_picks (xs := xs)).
Qed.

Lemma py_min_of xs :
  xs <> [] -> nan_free xs -> exists m, py_min_list xs = Ok m /\ is_min_of m xs.
Proof.
  exact (reduce_selects py_min_step leb leb_refl leb_trans py_min_step_picks (xs := xs)).
Qed.

Lemma py_max_of xs :
  xs <> [] -> nan_free xs -> exists m, py_max_list xs = Ok m /\ is_max_of m xs.
Proof.
  exact (reduce_selects py_max_step above above_refl above_trans py_max_step_picks (xs := xs)).
Qed.

Lemma nan_free_app xs ys : nan_free (xs ++ ys) -> nan_free xs /\ nan_free ys.
Proof. apply Forall_app. Qed.

Lemma nan_free_pair a b xs ys :
  nan_free (xs ++ ys) -> In a xs -> In b ys -> nan_free [a; b].
Proof.
  unfold nan_free. rewrite !Forall_forall. intros NF Ia Ib x [<- | [<- | []]];
    apply NF, in_or_app; auto.
Qed.

(** [np.min([np.min(data), np.min(test)])] is the least element of both. *)
Lemma np_min_of_both xs ys :
  xs <> [] -> ys <> [] -> nan_free (xs ++ ys) ->
  exists a b m,
    np_min_list xs = Ok a /\ np_min_list ys = Ok b
    /\ np_min_list [a; b] = Ok m /\ is_min_of m (xs ++ ys).
Proof.
  intros NEx NEy NF. destruct (nan_free_app _ _ NF) as (NFx & NFy).
  destruct (np_min_of NEx NFx) as (a & Ea & Ia & La).
  destruct (np_min_of NEy NFy) as (b & Eb & Ib & Lb).
  destruct (@np_min_of [a; b]) as (m & Em & Im & Lm);
    [ discriminate | eapply nan_free_pair; eauto | ].
  exists a, b, m. repeat split; auto;
    eapply (selects_app leb leb_trans NF Ia La Ib Lb Im Lm).
Qed.

Lemma np_max_of_both xs ys :
  xs <> [] -> ys <> [] -> nan_free (xs ++ ys) ->
  exists a b m,
    np_max_list xs = Ok a /\ np_max_list ys = Ok b
    /\ np_max_list [a; b] = Ok m /\ is_max_of m (xs ++ ys).
Proof.
  intros NEx NEy NF. destruct (nan_free_app _ _ NF) as (NFx & NFy).
  destruct (np_max_of NEx NFx) as (a & Ea & Ia & La).
  destruct (np_max_of NEy NFy) as (b & Eb & Ib & Lb).
  destruct (@np_max_of [a; b]) as (m & Em & Im & Lm);
    [ discriminate | eapply nan_free_pair; eauto | ].
  exists a, b, m. repeat split; auto;
    eapply (selects_app above above_trans NF Ia La Ib Lb Im Lm).
Qed.

Lemma spline_model_bbox_run h width_test ratio_test width_data ratio_data
    wt rt wd rd :
  content h width_test = Some wt -> content h ratio_test = Some rt ->
  content h width_data = Some wd -> content h ratio_data = Some rd ->
  ravel wt <> [] -> ravel rt <> [] -> ravel wd <> [] -> ravel rd <> [] ->
  nan_free (ravel wd ++ ravel wt) -> nan_free (ravel rd ++ ravel rt) ->
  exists xb xe yb ye,
    spline_model_bbox width_test ratio_test width_data ratio_data h
    = (Ok (xb, xe, yb, ye), h)
    /\ is_min_of xb (ravel wd ++ ravel wt)
    /\ is_max_of xe (ravel wd ++ ravel wt)
    /\ is_min_of yb (ravel rd ++ ravel rt)
    /\ is_max_of ye (ravel rd ++ ravel rt).
Proof.
  intros Cwt Crt Cwd Crd Nwt Nrt Nwd Nrd NFw NFr.
  destruct (np_min_of_both Nwd Nwt NFw) as (a0 & b0 & xb & A0 & B0 & M0 & Hxb).
  destruct (np_max_of_both Nwd Nwt NFw) as (a1 & b1 & xe & A1 & B1 & M1 & Hxe).
  destruct (np_min_of_both Nrd Nrt NFr) as (a2 & b2 & yb & A2 & B2 & M2 & Hyb).
  destruct (np_max_of_both Nrd Nrt NFr) as (a3 & b3 & ye & A3 & B3 & M3 & Hye).
  exists xb, xe, yb, ye. repeat split; try apply Hxb; try apply Hxe;
    try apply Hyb; try apply Hye.
  unfold spline_model_bbox, bind, lift.
  rewrite (np_min_run Cwd), A0, (np_min_run Cwt), B0, M0.
  rewrite (np_max_run Cwd), A1, (np_max_run Cwt), B1, M1.
  rewrite (np_min_run Crd), A2, (np_min_run Crt), B2, M2.
  rewrite (np_max_run Crd), A3, (np_max_run Crt), B3, M3.
  reflexivity.
Qed.

Lemma single_bbox_run h ax ay xs ys :
  content h ax = Some (Vector xs) -> content h ay = Some (Vector ys) ->
  xs <> [] -> ys <> [] -> nan_free xs -> nan_free ys ->
  exists xb xe yb ye,
    single_bbox ax ay h = (Ok (xb, xe, yb, ye), h)
    /\ is_min_of xb xs /\ is_max_of xe xs
    /\ is_min_of yb ys /\ is_max_of ye ys.
Proof.
  intros Cx Cy Nx Ny NFx NFy.
  destruct (py_min_of Nx NFx) as (xb & E0 & Hxb).
  destruct (py_max_of Nx NFx) as (xe & E1 & Hxe).
  destruct (py_min_of Ny NFy) as (yb & E2 & Hyb).
  destruct (py_max_of Ny NFy) as (ye & E3 & Hye).
  exists xb, xe, yb, ye. repeat split; try apply Hxb; try apply Hxe;
    try apply Hyb; try apply Hye.
  unfold single_bbox, bind, py_min, py_max.
  rewrite !(py_reduce_run _ Cx), E0, E1, !(py_reduce_run _ Cy), E2, E3.
  reflexivity.
Qed.

(** ** Runs that end alike *)

Lemma extends_refl h : extends h h.
Proof. exists []. now rewrite app_nil_r. Qed.

Lemma extends_trans h1 h2 h3 : extends h1 h2 -> extends h2 h3 -> extends h1 h3.
Proof. intros (t & ->) (u & ->). exists (t ++ u). now rewrite app_assoc. Qed.

Lemma extends_app h t : extends h (h ++ t).
Proof. now exists t. Qed.

Lemma extends_content h h' v a :
  extends h h' -> content h v = Some a -> content h' v = Some a.
Proof. intros (t & ->). apply content_app. Qed.

Lemma extends_nth_error h h' l a :
  extends h h' -> nth_error h l = Some a -> nth_error h' l = Some a.
Proof. intros X. apply (extends_content (PyArr l) X). Qed.

Lemma agree_extends h1 h2 h1' h2' v1 v2 :
  extends h1 h1' -> extends h2 h2' ->
  agree h1 h2 v1 v2 -> agree h1' h2' v1 v2.
Proof.
  intros X1 X2 (a & C1 & C2). exists a. split; eapply extends_content; eauto.
Qed.
Arguments agree_extends {h1 h2 h1' h2' v1 v2} _ _ _.

Lemma agree_number h1 h2 x : agree h1 h2 (PyFloat x) (PyFloat x).
Proof. now exists (Scalar x). Qed.

Lemma agree_alloc h1 h2 a :
  agree (h1 ++ [a]) (h2 ++ [a]) (PyArr (length h1)) (PyArr (length h2)).
Proof. exists a. split; apply content_alloc. Qed.

Create HintDb sim.
#[local] Hint Resolve extends_refl extends_app agree_number agree_alloc : sim.

(** Carry what is known of the arguments over to the stores a step left. *)
Ltac carry X1 X2 :=
  match type of X1 with
  | extends ?h1 _ =>
      match type of X2 with
      | extends ?h2 _ =>
          repeat match goal with
                 | H : agree h1 h2 _ _ |- _ => apply (agree_extends X1 X2) in H
                 end
      end
  end.

Section Sim.

Context {A B : Type}.

Lemma sim_ret (R : heap -> heap -> A -> A -> Prop) a1 a2 h1 h2 :
  R h1 h2 a1 a2 -> sim R (ret a1) (ret a2) h1 h2.
Proof. intros H. repeat split; simpl; auto with sim. Qed.

Lemma sim_raise (R : heap -> heap -> A -> A -> Prop) e h1 h2 :
  sim R (raise e) (raise e) h1 h2.
Proof. repeat split; simpl; auto with sim. Qed.

Lemma sim_lift (r : result A) h1 h2 : sim same (lift r) (lift r) h1 h2.
Proof.
  repeat split; simpl; auto with sim.
  unfold same_outcome, lift. simpl. now destruct r.
Qed.

Lemma sim_bind (R : heap -> heap -> A -> A -> Prop)
    (Q : heap -> heap -> B -> B -> Prop) m1 m2 k1 k2 h1 h2 :
  sim R m1 m2 h1 h2 ->
  (forall a1 a2 h1' h2',
      extends h1 h1' -> extends h2 h2' -> R h1' h2' a1 a2 ->
      sim Q (k1 a1) (k2 a2) h1' h2') ->
  sim Q (bind m1 k1) (bind m2 k2) h1 h2.
Proof.
  unfold sim, same_outcome, bind. intros (O & X1 & X2) K.
  destruct (m1 h1) as [[a1 | e1] h1'], (m2 h2) as [[a2 | e2] h2'];
    simpl in *; try contradiction; auto.
  destruct (K a1 a2 h1' h2' X1 X2 O) as (O' & X1' & X2').
  repeat split; eauto using extends_trans.
Qed.

(** A step that never returns decides the outcome of what follows it. *)
Lemma sim_bind_never (R : heap -> heap -> A -> A -> Prop)
    (Q : heap -> heap -> B -> B -> Prop) m1 m2 (k1 k2 : A -> M B) h1 h2 :
  never_returns m1 -> never_returns m2 ->
  sim R m1 m2 h1 h2 -> sim Q (bind m1 k1) (bind m2 k2) h1 h2.
Proof.
  intros N1 N2. destruct (N1 h1) as (e1 & h1' & E1), (N2 h2) as (e2 & h2' & E2).
  unfold sim, same_outcome.
  rewrite (bind_raise k1 E1), (bind_raise k2 E2), E1, E2. auto.
Qed.

End Sim.

Lemma sim_read h1 h2 v1 v2 :
  agree h1 h2 v1 v2 -> sim same (read v1) (read v2) h1 h2.
Proof.
  intros (a & C1 & C2). unfold sim, same_outcome.
  rewrite (read_run C1), (read_run C2). simpl.
  repeat split; auto with sim.
Qed.

Lemma sim_alloc a h1 h2 : sim agree (alloc a) (alloc a) h1 h2.
Proof. unfold sim, same_outcome, alloc. simpl. auto with sim. Qed.

(** A step of which both runs get the same value. *)
Lemma sim_bind_same {A B : Type} (Q : heap -> heap -> B -> B -> Prop)
    (m1 m2 : M A) k1 k2 h1 h2 :
  sim same m1 m2 h1 h2 ->
  (forall a h1' h2',
      extends h1 h1' -> extends h2 h2' -> sim Q (k1 a) (k2 a) h1' h2') ->
  sim Q (bind m1 k1) (bind m2 k2) h1 h2.
Proof.
  intros S K. eapply sim_bind; [ exact S | ].
  intros a1 a2 h1' h2' X1 X2 E. red in E. subst a2. auto.
Qed.

Lemma sim_np_shape h1 h2 v1 v2 :
  agree h1 h2 v1 v2 -> sim same (np_shape v1) (np_shape v2) h1 h2.
Proof.
  intros Ag. eapply sim_bind_same; [ now apply sim_read | ].
  intros. now apply sim_ret.
Qed.

Lemma sim_np_min h1 h2 v1 v2 :
  agree h1 h2 v1 v2 -> sim same (np_min v1) (np_min v2) h1 h2.
Proof.
  intros Ag. eapply sim_bind_same; [ now apply sim_read | ].
  intros. apply sim_lift.
Qed.

Lemma sim_np_max h1 h2 v1 v2 :
  agree h1 h2 v1 v2 -> sim same (np_max v1) (np_max v2) h1 h2.
Proof.
  intros Ag. eapply sim_bind_same; [ now apply sim_read | ].
  intros. apply sim_lift.
Qed.

Lemma sim_np_append h1 h2 a1 a2 v1 v2 :
  agree h1 h2 a1 a2 -> agree h1 h2 v1 v2 ->
  sim agree (np_append a1 v1) (np_append a2 v2) h1 h2.
Proof.
  intros Aa Av. eapply sim_bind_same; [ now apply sim_read | ].
  intros a h1' h2' X1 X2. carry X1 X2.
  eapply sim_bind_same; [ now apply sim_read | ].
  intros. apply sim_alloc.
Qed.

Lemma sim_np_delete h1 h2 v1 v2 i :
  agree h1 h2 v1 v2 -> sim agree (np_delete v1 i) (np_delete v2 i) h1 h2.
Proof.
  intros Ag. eapply sim_bind_same; [ now apply sim_read | ].
  intros a h1' h2' X1 X2.
  destruct (i <? length (ravel a)); [ apply sim_alloc | apply sim_raise ].
Qed.

Lemma sim_py_reduce f h1 h2 v1 v2 :
  agree h1 h2 v1 v2 -> sim same (py_reduce f v1) (py_reduce f v2) h1 h2.
Proof.
  intros Ag. eapply sim_bind_same; [ now apply sim_read | ].
  intros a h1' h2' X1 X2.
  destruct a; [ apply sim_raise | apply sim_lift | apply sim_raise ].
Qed.

Lemma sim_py_len h1 h2 v1 v2 :
  agree h1 h2 v1 v2 -> sim same (py_len v1) (py_len v2) h1 h2.
Proof.
  intros Ag. eapply sim_bind_same; [ now apply sim_read | ].
  intros a h1' h2' X1 X2.
  destruct a; [ apply sim_raise | now apply sim_ret | now apply sim_ret ].
Qed.

Lemma sim_getitem1 h1 h2 v1 v2 i :
  agree h1 h2 v1 v2 -> sim agree (getitem1 v1 i) (getitem1 v2 i) h1 h2.
Proof.
  intros Ag. eapply sim_bind_same; [ now apply sim_read | ].
  intros a h1' h2' X1 X2. destruct a as [x | xs | r c cells].
  - apply sim_raise.
  - destruct (nth_error xs i); [ apply sim_ret; auto with sim | apply sim_raise ].
  - destruct (i <? r); [ apply sim_alloc | apply sim_raise ].
Qed.

Lemma sim_getitem2 h1 h2 v1 v2 i j :
  agree h1 h2 v1 v2 -> sim agree (getitem2 v1 i j) (getitem2 v2 i j) h1 h2.
Proof.
  intros Ag. eapply sim_bind_same; [ now apply sim_read | ].
  intros a h1' h2' X1 X2. destruct a as [x | xs | r c cells];
    try apply sim_raise.
  destruct ((i <? r) && (j <? c)); [ | apply sim_raise ].
  destruct (nth_error cells (i * c + j));
    [ apply sim_ret; auto with sim | apply sim_raise ].
Qed.

Lemma sim_np_array2 xss h1 h2 : sim agree (np_array2 xss) (np_array2 xss) h1 h2.
Proof. destruct xss; apply sim_alloc. Qed.

(** A comprehension whose body ends alike on related items. *)
Lemma sim_comprehension {A B : Type} (R : heap -> heap -> B -> B -> Prop)
    (b1 b2 : A -> M B) :
  (forall h1 h2 h1' h2' x y,
      extends h1 h1' -> extends h2 h2' -> R h1 h2 x y -> R h1' h2' x y) ->
  forall items1 items2 h1 h2,
    Forall2 (fun x1 x2 =>
               forall h1' h2', extends h1 h1' -> extends h2 h2' ->
                               sim R (b1 x1) (b2 x2) h1' h2')
            items1 items2 ->
    sim (fun g1 g2 => Forall2 (R g1 g2))
        (comprehension b1 items1) (comprehension b2 items2) h1 h2.
Proof.
  intros Mono items1.
  induction items1 as [| x1 rest1 IH]; intros items2 h1 h2 F;
    inversion F as [| ? x2 ? rest2 Hd Tl]; subst.
  - apply sim_ret. constructor.
  - simpl. eapply sim_bind; [ apply Hd; auto with sim | ].
    intros y1 y2 h1a h2a X1 X2 Ry.
    eapply sim_bind.
    + apply IH. eapply Forall2_impl; [ | eassumption ].
      intros u1 u2 S g1 g2 G1 G2. apply S; eauto using extends_trans.
    + intros ys1 ys2 h1b h2b Y1 Y2 Rys. apply sim_ret.
      constructor; eauto.
Qed.

Lemma Forall2_diag {A : Type} (P : A -> A -> Prop) xs :
  (forall x, In x xs -> P x x) -> Forall2 P xs xs.
Proof.
  induction xs as [| x xs IH]; intros H; constructor.
  - apply H. now left.
  - apply IH. intros y I. apply H. now right.
Qed.

Lemma Forall2_same {A : Type} (xs ys : list A) : Forall2 eq xs ys -> xs = ys.
Proof. induction 1; congruence. Qed.

(** The same body over the same items. *)
Lemma sim_comprehension_same {A B : Type} (b1 b2 : A -> M B) items h1 h2 :
  (forall x h1' h2', In x items -> extends h1 h1' -> extends h2 h2' ->
                     sim same (b1 x) (b2 x) h1' h2') ->
  sim same (comprehension b1 items) (comprehension b2 items) h1 h2.
Proof.
  intros Body.
  assert (S : sim (fun g1 g2 => Forall2 (same g1 g2))
                  (comprehension b1 items) (comprehension b2 items) h1 h2).
  { apply sim_comprehension; [ now unfold same | ].
    apply Forall2_diag. intros x I g1 g2 G1 G2. now apply Body. }
  destruct S as (O & X1 & X2). repeat split; auto.
  unfold same_outcome in *.
  destruct (fst (comprehension b1 items h1)), (fst (comprehension b2 items h2));
    auto.
  now apply Forall2_same.
Qed.

Lemma sim_asarray vs1 vs2 h1 h2 :
  Forall2 (agree h1 h2) vs1 vs2 -> sim same (asarray vs1) (asarray vs2) h1 h2.
Proof.
  intros F. unfold asarray.
  eapply sim_bind with (R := fun g1 g2 => Forall2 (same g1 g2)).
  - apply sim_comprehension; [ now unfold same | ].
    eapply Forall2_impl; [ | exact F ].
    intros v1 v2 Ag g1 g2 G1 G2. apply sim_read.
    exact (agree_extends G1 G2 Ag).
  - intros items1 items2 g1 g2 G1 G2 E. apply Forall2_same in E. subst items2.
    destruct items1 as [| [x | xs | r c cells] rest].
    + now apply sim_ret.
    + match goal with |- context [if ?c then _ else _] => destruct c end;
        [ now apply sim_ret | apply sim_raise ].
    + match goal with |- context [if ?c then _ else _] => destruct c end;
        [ now apply sim_ret | apply sim_raise ].
    + apply sim_raise.
Qed.

Lemma sim_arith f (ma1 ma2 mb1 mb2 : M ndarray) h1 h2 :
  sim same ma1 ma2 h1 h2 ->
  (forall h1' h2', extends h1 h1' -> extends h2 h2' ->
                   sim same mb1 mb2 h1' h2') ->
  sim agree (arith f ma1 mb1) (arith f ma2 mb2) h1 h2.
Proof.
  intros Sa Sb. unfold arith.
  eapply sim_bind_same; [ exact Sa | ]. intros a g1 g2 G1 G2.
  eapply sim_bind_same; [ now apply Sb | ]. intros b k1 k2 K1 K2.
  eapply sim_bind_same; [ apply sim_lift | ]. intros r l1 l2 L1 L2.
  destruct r; [ apply sim_ret; auto with sim | apply sim_alloc | apply sim_alloc ].
Qed.

Section Determinism.

Variable spline : Type.
Variable fit :
  ndarray -> ndarray -> ndarray -> option bbox -> nat -> nat -> result spline.
Variable surface : spline -> float -> float -> float.

Lemma sim_fit h1 h2 x1 x2 y1 y2 z1 z2 box kx ky :
  agree h1 h2 x1 x2 -> agree h1 h2 y1 y2 -> agree h1 h2 z1 z2 ->
  sim same (SmoothBivariateSpline fit x1 y1 z1 box kx ky)
           (SmoothBivariateSpline fit x2 y2 z2 box kx ky) h1 h2.
Proof.
  intros Ax Ay Az. unfold SmoothBivariateSpline.
  eapply sim_bind_same; [ now apply sim_read | ]. intros a g1 g2 G1 G2.
  carry G1 G2.
  eapply sim_bind_same; [ now apply sim_read | ]. intros b k1 k2 K1 K2.
  carry K1 K2.
  eapply sim_bind_same; [ now apply sim_read | ]. intros c l1 l2 L1 L2.
  apply sim_lift.
Qed.

Lemma sim_ev s h1 h2 x1 x2 y1 y2 :
  agree h1 h2 x1 x2 -> agree h1 h2 y1 y2 ->
  sim agree (ev surface s x1 y1) (ev surface s x2 y2) h1 h2.
Proof.
  intros Ax Ay. unfold ev.
  eapply sim_bind_same; [ now apply sim_read | ]. intros a g1 g2 G1 G2.
  carry G1 G2.
  eapply sim_bind_same; [ now apply sim_read | ]. intros b k1 k2 K1 K2.
  eapply sim_bind_same; [ apply sim_lift | ]. intros r l1 l2 L1 L2.
  apply sim_alloc.
Qed.

Lemma sim_spline_model_bbox h1 h2 wt1 wt2 rt1 rt2 wd1 wd2 rd1 rd2 :
  agree h1 h2 wt1 wt2 -> agree h1 h2 rt1 rt2 ->
  agree h1 h2 wd1 wd2 -> agree h1 h2 rd1 rd2 ->
  sim same (spline_model_bbox wt1 rt1 wd1 rd1)
           (spline_model_bbox wt2 rt2 wd2 rd2) h1 h2.
Proof.
  intros Awt Art Awd Ard. unfold spline_model_bbox.
  repeat (eapply sim_bind_same;
          [ first [ now apply sim_np_min | now apply sim_np_max
                  | apply sim_lift ]
          | let X1 := fresh "X" in let X2 := fresh "X" in
            intros ? ? ? X1 X2; carry X1 X2 ]).
  now apply sim_ret.
Qed.

Lemma sim_spline_model h1 h2 wt1 wt2 rt1 rt2 wd1 wd2 rd1 rd2 fd1 fd2 :
  agree h1 h2 wt1 wt2 -> agree h1 h2 rt1 rt2 ->
  agree h1 h2 wd1 wd2 -> agree h1 h2 rd1 rd2 -> agree h1 h2 fd1 fd2 ->
  sim agree (spline_model fit surface wt1 rt1 wd1 rd1 fd1)
            (spline_model fit surface wt2 rt2 wd2 rd2 fd2) h1 h2.
Proof.
  intros Awt Art Awd Ard Afd. unfold spline_model.
  eapply sim_bind_same; [ now apply sim_spline_model_bbox | ].
  intros box g1 g2 G1 G2. carry G1 G2.
  eapply sim_bind_same; [ now apply sim_fit | ].
  intros s k1 k2 K1 K2. carry K1 K2.
  now apply sim_ev.
Qed.

Lemma sim_single_bbox h1 h2 ax1 ax2 ay1 ay2 :
  agree h1 h2 ax1 ax2 -> agree h1 h2 ay1 ay2 ->
  sim same (single_bbox ax1 ay1) (single_bbox ax2 ay2) h1 h2.
Proof.
  intros Ax Ay. unfold single_bbox, py_min, py_max.
  repeat (eapply sim_bind_same;
          [ now apply sim_py_reduce
          | let X1 := fresh "X" in let X2 := fresh "X" in
            intros ? ? ? X1 X2; carry X1 X2 ]).
  now apply sim_ret.
Qed.

Lemma sim_single h1 h2 xt1 xt2 yt1 yt2 xd1 xd2 yd1 yd2 zd1 zd2 :
  agree h1 h2 xt1 xt2 -> agree h1 h2 yt1 yt2 ->
  agree h1 h2 xd1 xd2 -> agree h1 h2 yd1 yd2 -> agree h1 h2 zd1 zd2 ->
  sim same
    (_single_calculate_deformability fit surface xt1 yt1 xd1 yd1 zd1)
    (_single_calculate_deformability fit surface xt2 yt2 xd2 yd2 zd2) h1 h2.
Proof.
  intros Axt Ayt Axd Ayd Azd. unfold _single_calculate_deformability.
  eapply sim_bind; [ now apply sim_np_append | ].
  intros ax1 ax2 g1 g2 G1 G2 Aax. carry G1 G2.
  eapply sim_bind; [ now apply sim_np_append | ].
  intros ay1 ay2 k1 k2 K1 K2 Aay. carry K1 K2.
  eapply sim_bind_same; [ now apply sim_single_bbox | ].
  intros box l1 l2 L1 L2. carry L1 L2.
  eapply sim_bind_same; [ now apply sim_fit | ].
  intros s0 m1 m2 M1 M2. carry M1 M2.
  eapply sim_bind; [ now apply sim_ev | ].
  intros im1 im2 n1 n2 N1 N2 Aim.
  apply sim_bind_never with (R := agree);
    auto using never_returns_unbound.
  apply sim_raise.
Qed.

Section Loop.

Variable single : pyval -> pyval -> pyval -> pyval -> pyval -> M float.
Hypothesis single_alike : forall h1 h2 xt1 xt2 yt1 yt2 xd1 xd2 yd1 yd2 zd1 zd2,
  agree h1 h2 xt1 xt2 -> agree h1 h2 yt1 yt2 ->
  agree h1 h2 xd1 xd2 -> agree h1 h2 yd1 yd2 -> agree h1 h2 zd1 zd2 ->
  sim same (single xt1 yt1 xd1 yd1 zd1) (single xt2 yt2 xd2 yd2 zd2) h1 h2.

Lemma sim_deformability_by_shape h1 h2 xt1 xt2 yt1 yt2 xd1 xd2 yd1 yd2 zd1 zd2 :
  agree h1 h2 xt1 xt2 -> agree h1 h2 yt1 yt2 ->
  agree h1 h2 xd1 xd2 -> agree h1 h2 yd1 yd2 -> agree h1 h2 zd1 zd2 ->
  sim agree (deformability_by_shape single xt1 yt1 xd1 yd1 zd1)
            (deformability_by_shape single xt2 yt2 xd2 yd2 zd2) h1 h2.
Proof.
  intros Axt Ayt Axd Ayd Azd. unfold deformability_by_shape.
  eapply sim_bind_same; [ now apply sim_np_shape | ].
  intros dim g1 g2 G1 G2. carry G1 G2.
  destruct dim as [| n0 [| n1 dim]].
  - eapply sim_bind_same; [ now apply single_alike | ].
    intros d k1 k2 K1 K2. apply sim_ret. auto with sim.
  - eapply sim_bind_same; [ | intros; apply sim_alloc ].
    apply sim_comprehension_same. intros i k1 k2 _ K1 K2. carry K1 K2.
    eapply sim_bind; [ now apply sim_getitem1 | ].
    intros xi1 xi2 l1 l2 L1 L2 Axi. carry L1 L2.
    eapply sim_bind; [ now apply sim_getitem1 | ].
    intros yi1 yi2 m1 m2 M1 M2 Ayi. carry M1 M2.
    now apply single_alike.
  - eapply sim_bind_same; [ | intros; apply sim_np_array2 ].
    apply sim_comprehension_same. intros j k1 k2 _ K1 K2. carry K1 K2.
    apply sim_comprehension_same. intros i l1 l2 _ L1 L2. carry L1 L2.
    eapply sim_bind; [ now apply sim_getitem2 | ].
    intros xi1 xi2 m1 m2 M1 M2 Axi. carry M1 M2.
    eapply sim_bind; [ now apply sim_getitem2 | ].
    intros yi1 yi2 n1' n2' N1 N2 Ayi. carry N1 N2.
    now apply single_alike.
Qed.

Lemma sim_calculate_deformability_with
    h1 h2 xt1 xt2 yt1 yt2 xd1 xd2 yd1 yd2 zd1 zd2 :
  agree h1 h2 xt1 xt2 -> agree h1 h2 yt1 yt2 ->
  agree h1 h2 xd1 xd2 -> agree h1 h2 yd1 yd2 -> agree h1 h2 zd1 zd2 ->
  sim agree (calculate_deformability_with single xt1 yt1 xd1 yd1 zd1)
            (calculate_deformability_with single xt2 yt2 xd2 yd2 zd2) h1 h2.
Proof.
  intros Axt Ayt Axd Ayd Azd. unfold calculate_deformability_with.
  eapply sim_bind; [ now apply sim_deformability_by_shape | ].
  intros d1 d2 g1 g2 G1 G2 Ad.
  eapply sim_bind_same; [ now apply sim_np_shape | ].
  intros got k1 k2 K1 K2.
  apply sim_bind_never with (R := same);
    auto using never_returns_unbound.
  apply sim_raise.
Qed.

End Loop.

Lemma sim_gated h1 h2 wt1 wt2 rt1 rt2 wd1 wd2 rd1 rd2 fd1 fd2 :
  agree h1 h2 wt1 wt2 -> agree h1 h2 rt1 rt2 ->
  agree h1 h2 wd1 wd2 -> agree h1 h2 rd1 rd2 -> agree h1 h2 fd1 fd2 ->
  sim agree (spline_model_with_deformability fit surface wt1 rt1 wd1 rd1 fd1)
            (spline_model_with_deformability fit surface wt2 rt2 wd2 rd2 fd2)
            h1 h2.
Proof.
  intros Awt Art Awd Ard Afd. unfold spline_model_with_deformability.
  apply sim_bind_never with (R := agree);
    try apply calculate_deformability_with_never_returns.
  apply sim_calculate_deformability_with; auto.
  intros. now apply sim_single.
Qed.

Lemma sim_percent h1 h2 wd1 wd2 rd1 rd2 fd1 fd2 :
  agree h1 h2 wd1 wd2 -> agree h1 h2 rd1 rd2 -> agree h1 h2 fd1 fd2 ->
  sim agree
    (calculate_percent_prediction_differences fit surface wd1 rd1 fd1)
    (calculate_percent_prediction_differences fit surface wd2 rd2 fd2) h1 h2.
Proof.
  intros Awd Ard Afd. unfold calculate_percent_prediction_differences.
  eapply sim_bind_same; [ now apply sim_py_len | ].
  intros n g1 g2 G1 G2. carry G1 G2.
  eapply sim_bind with (R := fun k1 k2 => Forall2 (agree k1 k2)).
  - apply sim_comprehension; [ intros; eapply agree_extends; eauto | ].
    apply Forall2_diag. intros i _ k1 k2 K1 K2. carry K1 K2.
    eapply sim_bind; [ now apply sim_getitem1 | ].
    intros wi1 wi2 l1 l2 L1 L2 Awi. carry L1 L2.
    eapply sim_bind; [ now apply sim_getitem1 | ].
    intros ri1 ri2 m1 m2 M1 M2 Ari. carry M1 M2.
    eapply sim_bind; [ now apply sim_np_delete | ].
    intros w1 w2 n1 n2 N1 N2 Aw. carry N1 N2.
    eapply sim_bind; [ now apply sim_np_delete | ].
    intros r1 r2 o1 o2 O1 O2 Ar. carry O1 O2.
    eapply sim_bind; [ now apply sim_np_delete | ].
    intros f1 f2 p1 p2 P1 P2 Af. carry P1 P2.
    now apply sim_gated.
  - intros ps1 ps2 k1 k2 K1 K2 Aps. carry K1 K2.
    eapply sim_bind.
    + apply sim_arith; [ now apply sim_read | ].
      intros l1 l2 L1 L2. apply sim_asarray.
      eapply Forall2_impl; [ | exact Aps ].
      intros v1 v2 Ag. exact (agree_extends L1 L2 Ag).
    + intros d1 d2 l1 l2 L1 L2 Ad. carry L1 L2.
      eapply sim_bind.
      * apply sim_arith; [ now apply sim_ret | ].
        intros m1 m2 M1 M2. apply sim_read. exact (agree_extends M1 M2 Ad).
      * intros s1 s2 m1 m2 M1 M2 As. carry M1 M2.
        apply sim_arith; [ now apply sim_read | ].
        intros n1 n2 N1 N2. apply sim_read. exact (agree_extends N1 N2 Afd).
Qed.

End Determinism.

(** ** What line 205 writes *)

Lemma list_set_last {A : Type} (h : list A) a b :
  list_set (h ++ [a]) (length h) b = h ++ [b].
Proof. induction h as [| x h IH]; simpl; congruence. Qed.

Lemma store_last h a b :
  store (length h) b (h ++ [a]) = (Ok tt, h ++ [b]).
Proof.
  unfold store. rewrite length_app, list_set_last. simpl.
  assert (L : (length h <? length h + 1) = true) by (apply Nat.ltb_lt; lia).
  now rewrite L.
Qed.

Lemma np_gt_run h v a c :
  content h v = Some a -> np_gt v c h = (Ok (nd_map (fun x => ltb c x) a), h).
Proof. intros E. unfold np_gt. now rewrite (bind_ok _ (read_run E)). Qed.
Arguments np_gt_run {h v a} c _.

(** The item assignment on the array object just allocated at the end of
    the store leaves the rest of the store alone. *)
Lemma setitem_mask_last h a mask v :
  extends h (snd (setitem_mask (PyArr (length h)) mask v (h ++ [a]))).
Proof.
  unfold setitem_mask.
  rewrite (bind_ok _ (read_run (content_alloc h a))).
  unfold bind, lift. destruct (assign_where mask v a) as [a' | e]; simpl.
  - rewrite store_last. simpl. auto with sim.
  - auto with sim.
Qed.

(** ** Computations that leave the store as it is, or only add to it *)

Lemma readonly_ret {A : Type} (a : A) : readonly (ret a).
Proof. now intros h. Qed.

Lemma readonly_raise {A : Type} e : readonly (@raise A e).
Proof. now intros h. Qed.

Lemma readonly_lift {A : Type} (r : result A) : readonly (lift r).
Proof. now intros h. Qed.

Lemma readonly_read v : readonly (read v).
Proof. intros h. unfold read. now destruct (content h v). Qed.

Lemma readonly_bind {A B : Type} (m : M A) (k : A -> M B) :
  readonly m -> (forall a, readonly (k a)) -> readonly (bind m k).
Proof.
  intros Rm Rk h. unfold bind. specialize (Rm h).
  destruct (m h) as [[a | e] h']; simpl in *; subst; auto. apply Rk.
Qed.

Create HintDb store.
#[local] Hint Resolve readonly_ret readonly_raise readonly_lift readonly_read
  : store.

Ltac readonly_steps :=
  repeat first [ solve [ auto with store ]
               | apply readonly_bind; [ | intro ] ].

Lemma readonly_np_min v : readonly (np_min v).
Proof. unfold np_min. readonly_steps. Qed.

Lemma readonly_np_max v : readonly (np_max v).
Proof. unfold np_max. readonly_steps. Qed.

Lemma readonly_np_shape v : readonly (np_shape v).
Proof. unfold np_shape. readonly_steps. Qed.

Lemma readonly_np_gt v c : readonly (np_gt v c).
Proof. unfold np_gt. readonly_steps. Qed.

Lemma readonly_py_reduce f v : readonly (py_reduce f v).
Proof. unfold py_reduce. readonly_steps. destruct a; auto with store. Qed.

Lemma readonly_py_len v : readonly (py_len v).
Proof. unfold py_len. readonly_steps. destruct a; auto with store. Qed.

#[local] Hint Resolve readonly_np_min readonly_np_max readonly_np_shape
  readonly_np_gt readonly_py_reduce readonly_py_len : store.

Lemma readonly_spline_model_bbox wt rt wd rd :
  readonly (spline_model_bbox wt rt wd rd).
Proof. unfold spline_model_bbox. readonly_steps. Qed.

Lemma readonly_single_bbox ax ay : readonly (single_bbox ax ay).
Proof. unfold single_bbox, py_min, py_max. readonly_steps. Qed.

Lemma readonly_fit {spline : Type}
    (fit : ndarray -> ndarray -> ndarray -> option bbox -> nat -> nat
           -> result spline) x y z box kx ky :
  readonly (SmoothBivariateSpline fit x y z box kx ky).
Proof. unfold SmoothBivariateSpline. readonly_steps. Qed.

Lemma readonly_comprehension {A B : Type} (body : A -> M B) items :
  (forall x, readonly (body x)) -> readonly (comprehension body items).
Proof.
  intros Rb. induction items as [| x rest IH]; simpl; readonly_steps.
Qed.

Lemma readonly_asarray vs : readonly (asarray vs).
Proof.
  unfold asarray. apply readonly_bind.
  - apply readonly_comprehension. auto with store.
  - intros [| [x | xs | r c cells] rest]; auto with store;
      match goal with |- context [if ?c then _ else _] => destruct c end;
      auto with store.
Qed.

#[local] Hint Resolve readonly_spline_model_bbox readonly_single_bbox
  readonly_fit readonly_asarray : store.

Lemma grows_of_readonly {A : Type} (m : M A) : readonly m -> grows m.
Proof. intros Rm h. rewrite Rm. apply extends_refl. Qed.

Lemma grows_alloc a : grows (alloc a).
Proof. intros h. apply extends_app. Qed.

Lemma grows_bind {A B : Type} (m : M A) (k : A -> M B) :
  grows m -> (forall a, grows (k a)) -> grows (bind m k).
Proof.
  intros Gm Gk h. unfold bind. specialize (Gm h).
  destruct (m h) as [[a | e] h']; simpl in *; auto.
  eapply extends_trans; [ exact Gm | apply Gk ].
Qed.

(** What follows a step that never returns does not run. *)
Lemma grows_bind_never {A B : Type} (m : M A) (k : A -> M B) :
  never_returns m -> grows m -> grows (bind m k).
Proof.
  intros N Gm h. destruct (N h) as (e & h' & E).
  rewrite (bind_raise k E). specialize (Gm h). now rewrite E in Gm.
Qed.

Lemma grows_comprehension {A B : Type} (body : A -> M B) items :
  (forall x, grows (body x)) -> grows (comprehension body items).
Proof.
  intros Gb. induction items as [| x rest IH]; simpl.
  - apply grows_of_readonly; auto with store.
  - apply grows_bind; [ apply Gb | intro ].
    apply grows_bind; [ exact IH | intro ].
    apply grows_of_readonly; auto with store.
Qed.

#[local] Hint Resolve grows_alloc grows_of_readonly : store.

Ltac grows_steps :=
  repeat first [ solve [ auto with store ]
               | apply grows_bind; [ | intro ] ].

Lemma grows_np_append arr values : grows (np_append arr values).
Proof. unfold np_append. grows_steps. Qed.

Lemma grows_np_delete arr i : grows (np_delete arr i).
Proof.
  unfold np_delete. grows_steps.
  destruct (i <? length (ravel a)); auto with store.
Qed.

Lemma grows_getitem1 v i : grows (getitem1 v i).
Proof.
  unfold getitem1. grows_steps. destruct a as [x | xs | r c cells].
  - auto with store.
  - destruct (nth_error xs i); auto with store.
  - destruct (i <? r); auto with store.
Qed.

Lemma grows_getitem2 v i j : grows (getitem2 v i j).
Proof.
  unfold getitem2. grows_steps. destruct a as [x | xs | r c cells];
    auto with store.
  destruct ((i <? r) && (j <? c)); auto with store.
  destruct (nth_error cells (i * c + j)); auto with store.
Qed.

Lemma grows_np_array2 xss : grows (np_array2 xss).
Proof. destruct xss; apply grows_alloc. Qed.

Lemma grows_arith f ma mb : grows ma -> grows mb -> grows (arith f ma mb).
Proof.
  intros Ga Gb. unfold arith. grows_steps. destruct a1; auto with store.
Qed.

#[local] Hint Resolve grows_np_append grows_np_delete grows_getitem1
  grows_getitem2 grows_np_array2 grows_arith : store.

Section Frame.

Variable spline : Type.
Variable fit :
  ndarray -> ndarray -> ndarray -> option bbox -> nat -> nat -> result spline.
Variable surface : spline -> float -> float -> float.

Lemma grows_ev s xi yi : grows (ev surface s xi yi).
Proof. unfold ev. grows_steps. Qed.

Lemma grows_spline_model wt rt wd rd fd :
  grows (spline_model fit surface wt rt wd rd fd).
Proof.
  unfold spline_model.
  do 2 (apply grows_bind; [ solve [ auto with store ] | intro ]).
  apply grows_ev.
Qed.

Lemma grows_single xt yt xd yd zd :
  grows (_single_calculate_deformability fit surface xt yt xd yd zd).
Proof.
  unfold _single_calculate_deformability.
  do 4 (apply grows_bind; [ solve [ auto with store ] | intro ]).
  apply grows_bind; [ apply grows_ev | intro ].
  apply grows_bind_never; auto using never_returns_unbound.
  apply grows_of_readonly. apply readonly_raise.
Qed.

Lemma grows_deformability_by_shape single xt yt xd yd zd :
  (forall x y, grows (single x y xd yd zd)) ->
  grows (deformability_by_shape single xt yt xd yd zd).
Proof.
  intros Gs. unfold deformability_by_shape.
  apply grows_bind; [ auto with store | intros dim ].
  destruct dim as [| n0 [| n1 dim]].
  - grows_steps; try apply Gs.
  - apply grows_bind; [ | intro; apply grows_alloc ].
    apply grows_comprehension. intros i. grows_steps; try apply Gs.
  - apply grows_bind; [ | intro; auto with store ].
    apply grows_comprehension. intros j.
    apply grows_comprehension. intros i. grows_steps; try apply Gs.
Qed.

Lemma grows_calculate_deformability xt yt xd yd zd :
  grows (calculate_deformability fit surface xt yt xd yd zd).
Proof.
  unfold calculate_deformability, calculate_deformability_with.
  apply grows_bind.
  - apply grows_deformability_by_shape. intros. apply grows_single.
  - intros d. grows_steps.
    + unfold unbound. auto with store.
    + unfold py_assert. destruct (shape_eqb _ _); auto with store.
Qed.

Lemma grows_gated wt rt wd rd fd :
  grows (spline_model_with_deformability fit surface wt rt wd rd fd).
Proof.
  unfold spline_model_with_deformability.
  apply grows_bind_never.
  - apply calculate_deformability_with_never_returns.
  - apply grows_calculate_deformability.
Qed.

Lemma grows_percent wd rd fd :
  grows (calculate_percent_prediction_differences fit surface wd rd fd).
Proof.
  unfold calculate_percent_prediction_differences.
  apply grows_bind; [ auto with store | intros n ].
  apply grows_bind.
  - apply grows_comprehension. intros i.
    do 5 (apply grows_bind; [ solve [ auto with store ] | intro ]).
    apply grows_gated.
  - intros predictions. grows_steps.
Qed.

(** [spline_model] either raises in the store it was given, or returns the
    one array object it has added to it. *)
Lemma spline_model_outcome h wt rt wd rd fd :
  (exists e, spline_model fit surface wt rt wd rd fd h = (Raise e, h))
  \/ (exists r, spline_model fit surface wt rt wd rd fd h
                = (Ok (PyArr (length h)), h ++ [r])).
Proof.
  unfold spline_model, bind.
  pose proof (readonly_spline_model_bbox wt rt wd rd h) as R1.
  destruct (spline_model_bbox wt rt wd rd h) as [[box | e] h1];
    simpl in R1; subst h1; [ | left; eauto ].
  pose proof (readonly_fit fit wd rd fd (Some box) 2 1 h) as R2.
  destruct (SmoothBivariateSpline fit wd rd fd (Some box) 2 1 h)
    as [[s | e] h2]; simpl in R2; subst h2; [ | left; eauto ].
  unfold ev, bind, read, lift.
  destruct (content h wt) as [a |]; [ | left; eauto ].
  destruct (content h rt) as [b |]; [ | left; eauto ].
  destruct (broadcast2 nan nan nan (surface s) a b) as [r | e];
    [ right; now exists r | left; eauto ].
Qed.

(** Lines 201-207, run for any value [d] of [deformability]: the prediction
    is masked in the array [spline_model] has just made, and no object that
    was in the store changes. *)
Lemma gate_frame h d wt rt wd rd fd :
  extends h
    (snd ((model_factor <- spline_model fit surface wt rt wd rd fd ;;
           mask <- np_gt d lit_0_5 ;;
           setitem_mask model_factor mask nan ;;
           ret model_factor) h)).
Proof.
  destruct (spline_model_outcome h wt rt wd rd fd) as [(e & E) | (r & E)].
  - rewrite (bind_raise _ E). simpl. auto with sim.
  - rewrite (bind_ok _ E). unfold bind at 1.
    pose proof (readonly_np_gt d lit_0_5 (h ++ [r])) as R.
    destruct (np_gt d lit_0_5 (h ++ [r])) as [[mask | e] h1];
      simpl in R; subst h1; [ | simpl; auto with sim ].
    pose proof (setitem_mask_last h r mask nan) as X.
    unfold bind at 1.
    destruct (setitem_mask (PyArr (length h)) mask nan (h ++ [r]))
      as [[[] | e] h']; exact X.
Qed.

End Frame.

(** ** The loops of [calculate_deformability] *)

Lemma comprehension_run {A B : Type} (body : A -> M B) (g : A -> B) items h :
  (forall x, In x items -> body x h = (Ok (g x), h)) ->
  comprehension body items h = (Ok (map g items), h).
Proof.
  induction items as [| x rest IH]; intros Hb; simpl; auto.
  rewrite (bind_ok _ (Hb x (or_introl eq_refl))).
  rewrite (bind_ok _ (IH (fun y I => Hb y (or_intror I)))).
  reflexivity.
Qed.

Lemma np_shape_run h v a :
  content h v = Some a -> np_shape v h = (Ok (shape a), h).
Proof. intros E. unfold np_shape. now rewrite (bind_ok _ (read_run E)). Qed.
Arguments np_shape_run {h v a} _.

Lemma getitem2_run h v r c cells i j :
  content h v = Some (Matrix r c cells) -> length cells = r * c ->
  i < r -> j < c ->
  getitem2 v i j h = (Ok (PyFloat (nth (i * c + j) cells nan)), h).
Proof.
  intros E L Hi Hj. unfold getitem2. rewrite (bind_ok _ (read_run E)).
  apply Nat.ltb_lt in Hi as Bi. apply Nat.ltb_lt in Hj as Bj.
  rewrite Bi, Bj. simpl.
  assert (I : i * c + j < length cells) by nia.
  now rewrite (nth_error_nth' cells nan I).
Qed.
Arguments getitem2_run {h v r c cells i j} _ _ _ _.

Lemma pointwise_run f h x y xd yd zd :
  pointwise f (PyFloat x) (PyFloat y) xd yd zd h = (Ok (f x y), h).
Proof. reflexivity. Qed.

(** With a routine that returns, the else branch lists the grid column by
    column: every cell once, in an array of [cols] rows. *)
Lemma grid_by_columns f h xt yt xd yd zd r c xs ys :
  content h xt = Some (Matrix r c xs) -> content h yt = Some (Matrix r c ys) ->
  length xs = r * c -> length ys = r * c ->
  deformability_by_shape (pointwise f) xt yt xd yd zd h
  = np_array2
      (by_columns r c
         (fun i j => f (nth (i * c + j) xs nan) (nth (i * c + j) ys nan))) h.
Proof.
  intros Cx Cy Lx Ly. unfold deformability_by_shape.
  rewrite (bind_ok _ (np_shape_run Cx)).
  change (shape (Matrix r c xs)) with [r; c]. cbv beta iota.
  erewrite bind_ok; [ reflexivity | ].
  apply comprehension_run. intros j Ij. apply in_seq in Ij.
  apply comprehension_run. intros i Ii. apply in_seq in Ii.
  rewrite (bind_ok _ (getitem2_run Cx Lx (proj2 Ii) (proj2 Ij))).
  rewrite (bind_ok _ (getitem2_run Cy Ly (proj2 Ii) (proj2 Ij))).
  apply pointwise_run.
Qed.

Lemma np_array2_by_columns r c g h :
  0 < c ->
  np_array2 (by_columns r c g) h
  = (Ok (PyArr (length h)),
     h ++ [Matrix c r (concat (by_columns r c g))]).
Proof.
  intros Hc. unfold by_columns. destruct c as [| c]; [ lia | ].
  simpl seq. simpl map. unfold np_array2, alloc. simpl length.
  now rewrite !length_map, !length_seq.
Qed.

(** With the module's routine, the first cell ends the call. *)
Lemma grid_first_cell (single : pyval -> pyval -> pyval -> pyval -> pyval -> M float)
    h xt yt xd yd zd r c xs ys e h' :
  content h xt = Some (Matrix r c xs) -> content h yt = Some (Matrix r c ys) ->
  length xs = r * c -> length ys = r * c -> 0 < r -> 0 < c ->
  single (PyFloat (nth 0 xs nan)) (PyFloat (nth 0 ys nan)) xd yd zd h
  = (Raise e, h') ->
  deformability_by_shape single xt yt xd yd zd h = (Raise e, h').
Proof.
  intros Cx Cy Lx Ly Hr Hc E. unfold deformability_by_shape.
  rewrite (bind_ok _ (np_shape_run Cx)).
  change (shape (Matrix r c xs)) with [r; c]. cbv beta iota.
  destruct r as [| r]; [ lia | ]. destruct c as [| c]; [ lia | ].
  apply bind_raise. simpl seq. simpl comprehension.
  apply bind_raise. apply bind_raise.
  rewrite (bind_ok _ (getitem2_run Cx Lx Hr Hc)).
  rewrite (bind_ok _ (getitem2_run Cy Ly Hr Hc)).
  exact E.
Qed.

(** ** Line 205 and line 220 at one position *)

Lemma combine_map_l {A B C : Type} (g : A -> C) (xs : list A) (ys : list B) :
  combine (map g xs) ys = map (fun p => (g (fst p), snd p)) (combine xs ys).
Proof.
  revert ys. induction xs as [| x xs IH]; intros [| y ys]; simpl; auto.
  now rewrite IH.
Qed.

(** The masked array: not-a-number where the score exceeds 0.5, the
    prediction elsewhere. *)
Lemma mask_rule (d a : ndarray) :
  shape d = shape a ->
  exists a',
    assign_where (nd_map (fun x => ltb lit_0_5 x) d) nan a = Ok a'
    /\ shape a' = shape a
    /\ ravel a'
       = map (fun p => if ltb lit_0_5 (fst p) then nan else snd p)
             (combine (ravel d) (ravel a)).
Proof.
  destruct d as [dx | ds | r c ds], a as [x | xs | r' c' xs]; simpl;
    try discriminate; intros S.
  - eexists. split; [ reflexivity | ].
    destruct (ltb lit_0_5 dx); simpl; auto.
  - injection S as S. rewrite length_map, S, Nat.eqb_refl.
    eexists. split; [ reflexivity | ]. simpl.
    rewrite combine_map_l, map_map, length_map, length_combine, S, Nat.min_id.
    auto.
  - injection S as -> ->. rewrite !Nat.eqb_refl. simpl.
    eexists. split; [ reflexivity | ]. simpl.
    rewrite combine_map_l, map_map. auto.
Qed.

Lemma division_by_zero_not_finite x s : is_finite (div x (S754_zero s)) = false.
Proof. now destruct x. Qed.

Lemma percent_difference_zero_factor s p :
  is_finite (percent_difference (S754_zero s) p) = false.
Proof. apply division_by_zero_not_finite. Qed.

Lemma percent_difference_of_nan f : percent_difference f nan = nan.
Proof. unfold percent_difference. now destruct f. Qed.

(** ** The single-point routine, step by step *)

Lemma reduce_nonempty op xs x : exists m, np_reduce op (xs ++ [x]) = Ok m.
Proof. destruct xs; simpl; eauto. Qed.

Lemma ev_run_point {spline : Type} (surface : spline -> float -> float -> float)
    s h xi yi x y :
  content h xi = Some (Scalar x) -> content h yi = Some (Scalar y) ->
  ev surface s xi yi h
  = (Ok (PyArr (length h)), h ++ [Scalar (surface s x y)]).
Proof.
  intros Cx Cy. unfold ev.
  rewrite (bind_ok _ (read_run Cx)), (bind_ok _ (read_run Cy)).
  reflexivity.
Qed.
Arguments ev_run_point {spline} surface s {h xi yi x y} _ _.

Section Single.

Variable spline : Type.
Variable fit :
  ndarray -> ndarray -> ndarray -> option bbox -> nat -> nat -> result spline.
Variable surface : spline -> float -> float -> float.

Lemma single_run h xt yt xd yd zd x y cx cy cz :
  content h xt = Some (Scalar x) -> content h yt = Some (Scalar y) ->
  content h xd = Some cx -> content h yd = Some cy -> content h zd = Some cz ->
  exists xb xe yb ye,
    py_min_list (ravel cx ++ [x]) = Ok xb
    /\ py_max_list (ravel cx ++ [x]) = Ok xe
    /\ py_min_list (ravel cy ++ [y]) = Ok yb
    /\ py_max_list (ravel cy ++ [y]) = Ok ye
    /\ _single_calculate_deformability fit surface xt yt xd yd zd h
       = let h2 := (h ++ [Vector (ravel cx ++ [x])])
                     ++ [Vector (ravel cy ++ [y])] in
         match fit cx cy cz (Some (xb, xe, yb, ye)) 2 1 with
         | Raise e => (Raise e, h2)
         | Ok s =>
             (Raise (NameError "initial_fit"),
              h2 ++ [Scalar (surface s x y)])
         end.
Proof.
  intros Cxt Cyt Cxd Cyd Czd.
  destruct (reduce_nonempty py_min_step (ravel cx) x) as (xb & Exb).
  destruct (reduce_nonempty py_max_step (ravel cx) x) as (xe & Exe).
  destruct (reduce_nonempty py_min_step (ravel cy) y) as (yb & Eyb).
  destruct (reduce_nonempty py_max_step (ravel cy) y) as (ye & Eye).
  exists xb, xe, yb, ye. repeat (split; [ assumption | ]).
  set (ax := Vector (ravel cx ++ [x])). set (ay := Vector (ravel cy ++ [y])).
  cbv zeta. unfold _single_calculate_deformability.
  rewrite (bind_ok _ (np_append_run Cxd Cxt)).
  rewrite (bind_ok _ (np_append_run (content_app [ax] Cyd)
                                    (content_app [ax] Cyt))).
  fold ax ay.
  assert (Cax : content ((h ++ [ax]) ++ [ay]) (PyArr (length h)) = Some ax)
    by apply content_app, content_alloc.
  assert (Cay : content ((h ++ [ax]) ++ [ay]) (PyArr (length (h ++ [ax])))
                = Some ay) by apply content_alloc.
  assert (B : single_bbox (PyArr (length h)) (PyArr (length (h ++ [ax])))
                ((h ++ [ax]) ++ [ay])
              = (Ok (xb, xe, yb, ye), (h ++ [ax]) ++ [ay])).
  { unfold single_bbox, bind, py_min, py_max.
    rewrite !(py_reduce_run _ Cax), !(py_reduce_run _ Cay).
    fold py_min_list py_max_list in *.
    unfold ax, ay. now rewrite Exb, Exe, Eyb, Eye. }
  rewrite (bind_ok _ B).
  pose proof (fit_run fit (Some (xb, xe, yb, ye)) 2 1
                (content_app [ay] (content_app [ax] Cxd))
                (content_app [ay] (content_app [ax] Cyd))
                (content_app [ay] (content_app [ax] Czd))) as F.
  destruct (fit cx cy cz (Some (xb, xe, yb, ye)) 2 1) as [s | e].
  - rewrite (bind_ok _ F).
    rewrite (bind_ok _ (ev_run_point surface s
                          (content_app [ay] (content_app [ax] Cxt))
                          (content_app [ay] (content_app [ax] Cyt)))).
    reflexivity.
  - now rewrite (bind_raise _ F).
Qed.

End Single.

(** ** The leave-one-out loop *)

Lemma py_len_run h v xs :
  content h v = Some (Vector xs) -> py_len v h = (Ok (length xs), h).
Proof. intros E. unfold py_len. now rewrite (bind_ok _ (read_run E)). Qed.
Arguments py_len_run {h v xs} _.

Lemma bdim_no_columns m n c :
  m = 0 \/ n = 0 -> bdim m n = Some c -> c = 0.
Proof.
  unfold bdim. intros [-> | ->].
  - destruct n as [| [| n]]; simpl; congruence.
  - destruct m as [| [| m]]; simpl; congruence.
Qed.

Lemma flat_map_nil {A B : Type} (xs : list A) :
  flat_map (fun _ : A => @nil B) xs = [].
Proof. induction xs; simpl; auto. Qed.

Lemma rank_of_no_columns {A : Type} (a : nd A) :
  cols a = 0 -> 1 <= length (shape a).
Proof. destruct a; simpl; intros; try discriminate; lia. Qed.

Lemma broadcast2_no_columns (f : float -> float -> float) (a b r : ndarray) :
  cols a = 0 \/ cols b = 0 ->
  broadcast2 nan nan nan f a b = Ok r ->
  cols r = 0 /\ ravel r = [] /\ (forall z, r <> Scalar z).
Proof.
  intros Z. unfold broadcast2.
  assert (K : 1 <= Nat.max (length (shape a)) (length (shape b))).
  { destruct Z as [Z | Z]; apply rank_of_no_columns in Z; lia. }
  unfold cols in Z.
  destruct (extents a) as [r1 c1], (extents b) as [r2 c2]. simpl in Z.
  destruct (bdim r1 r2) as [rr |]; [ | discriminate ].
  destruct (bdim c1 c2) as [c |] eqn:Ec; [ | discriminate ].
  apply (bdim_no_columns Z) in Ec. subst c. simpl seq. simpl map.
  rewrite flat_map_nil. intros [= <-].
  destruct (Nat.max (length (shape a)) (length (shape b))) as [| [| k]];
    [ lia | | ]; simpl; repeat split; auto; discriminate.
Qed.

Lemma arith_no_columns f (ma mb : M ndarray) h a b :
  ma h = (Ok a, h) -> mb h = (Ok b, h) -> cols a = 0 \/ cols b = 0 ->
  (exists e, arith f ma mb h = (Raise e, h))
  \/ (exists r, arith f ma mb h = (Ok (PyArr (length h)), h ++ [r])
                /\ cols r = 0 /\ ravel r = []).
Proof.
  intros Ea Eb Z. unfold arith.
  rewrite (bind_ok _ Ea), (bind_ok _ Eb). unfold bind, lift.
  destruct (broadcast2 nan nan nan f a b) as [r | e] eqn:E.
  - destruct (@broadcast2_no_columns f a b r Z E) as (C & R & NS).
    right. exists r. destruct r as [z | xs | rr cc cells];
      [ now destruct (NS z) | now repeat split | now repeat split ].
  - left. now exists e.
Qed.

Section Percent.

Variable spline : Type.
Variable fit :
  ndarray -> ndarray -> ndarray -> option bbox -> nat -> nat -> result spline.
Variable surface : spline -> float -> float -> float.

(** With at least one calibration point the first fold ends the call. *)
Lemma percent_raises h wd rd fd n :
  py_len wd h = (Ok (S n), h) ->
  exists e h',
    calculate_percent_prediction_differences fit surface wd rd fd h
    = (Raise e, h').
Proof.
  intros L. unfold calculate_percent_prediction_differences.
  rewrite (bind_ok _ L).
  apply never_returns_bind_l. simpl seq.
  apply comprehension_cons_never_returns.
  do 5 (apply never_returns_bind_r; intro).
  apply gated_never_returns.
Qed.

(** The call returns only for an empty calibration set, and what it returns
    then has no entries. *)
Lemma percent_returns_nothing h wd rd fd v h' :
  calculate_percent_prediction_differences fit surface wd rd fd h = (Ok v, h') ->
  py_len wd h = (Ok 0, h)
  /\ exists a, content h' v = Some a /\ ravel a = [].
Proof.
  intros Run.
  pose proof (readonly_py_len wd h) as RO.
  destruct (py_len wd h) as [[n | e] h1] eqn:L; simpl in RO; subst h1.
  2:{ unfold calculate_percent_prediction_differences in Run.
      rewrite (bind_raise _ L) in Run. discriminate. }
  destruct n as [| n].
  2:{ destruct (@percent_raises h wd rd fd n L) as (e & h2 & E). congruence. }
  split; [ reflexivity | ].
  unfold calculate_percent_prediction_differences in Run.
  rewrite (bind_ok _ L) in Run. simpl seq in Run. simpl comprehension in Run.
  rewrite (@bind_ok _ _ (ret []) _ h [] h eq_refl) in Run.
  destruct (content h fd) as [cf |] eqn:Cf.
  2:{ assert (E : arith sub (read fd) (asarray []) h = (Raise BadAddress, h)).
      { unfold arith. apply bind_raise. unfold read. now rewrite Cf. }
      rewrite (bind_raise _ E) in Run. discriminate. }
  destruct (@arith_no_columns sub (read fd) (asarray []) h
              cf (Vector []) (read_run Cf) eq_refl (or_intror eq_refl))
    as [(e & E1) | (r1 & E1 & C1 & _)].
  { rewrite (bind_raise _ E1) in Run. discriminate. }
  rewrite (bind_ok _ E1) in Run.
  destruct (@arith_no_columns mul (ret (Scalar lit_100))
              (read (PyArr (length h))) (h ++ [r1])
              (Scalar lit_100) r1 eq_refl
              (read_run (content_alloc h r1)) (or_intror C1))
    as [(e & E2) | (r2 & E2 & C2 & _)].
  { rewrite (bind_raise _ E2) in Run. discriminate. }
  rewrite (bind_ok _ E2) in Run.
  destruct (@arith_no_columns div (read (PyArr (length (h ++ [r1]))))
              (read fd) ((h ++ [r1]) ++ [r2]) r2 cf
              (read_run (content_alloc (h ++ [r1]) r2))
              (read_run (content_app [r2] (content_app [r1] Cf)))
              (or_introl C2))
    as [(e & E3) | (r3 & E3 & C3 & R3)].
  { rewrite E3 in Run. discriminate. }
  rewrite E3 in Run. injection Run as <- <-.
  exists r3. split; [ apply content_alloc | exact R3 ].
Qed.

End Percent.


(** ** Lines 201-207 and line 220, were they reached *)

Lemma setitem_mask_last_run h a mask v a' :
  assign_where mask v a = Ok a' ->
  setitem_mask (PyArr (length h)) mask v (h ++ [a]) = (Ok tt, h ++ [a']).
Proof.
  intros A. unfold setitem_mask.
  rewrite (bind_ok _ (read_run (content_alloc h a))).
  unfold bind, lift. rewrite A. apply store_last.
Qed.

(** Lines 201-207 for any value [d] of [deformability] that has the shape of
    the prediction: the returned array holds not-a-number where [d] exceeds
    0.5 and the prediction of [spline_model] elsewhere. *)
Lemma gate_masks {spline : Type}
    (fit : ndarray -> ndarray -> ndarray -> option bbox -> nat -> nat
           -> result spline)
    (surface : spline -> float -> float -> float)
    h d wt rt wd rd fd cd r :
  content h d = Some cd ->
  spline_model fit surface wt rt wd rd fd h
  = (Ok (PyArr (length h)), h ++ [r]) ->
  shape cd = shape r ->
  exists r',
    (model_factor <- spline_model fit surface wt rt wd rd fd ;;
     mask <- np_gt d lit_0_5 ;;
     setitem_mask model_factor mask nan ;;
     ret model_factor) h
    = (Ok (PyArr (length h)), h ++ [r'])
    /\ shape r' = shape r
    /\ ravel r'
       = map (fun p => if ltb lit_0_5 (fst p) then nan else snd p)
             (combine (ravel cd) (ravel r)).
Proof.
  intros Cd E S.
  destruct (mask_rule cd r S) as (r' & A & Sh & Rv).
  exists r'. split; [ | now split ].
  rewrite (bind_ok _ E).
  rewrite (bind_ok _ (np_gt_run lit_0_5 (content_app [r] Cd))).
  rewrite (bind_ok _ (setitem_mask_last_run h r _ nan A)).
  reflexivity.
Qed.

Lemma arith_run f (ma mb : M ndarray) h a b r :
  ma h = (Ok a, h) -> mb h = (Ok b, h) ->
  broadcast2 nan nan nan f a b = Ok r -> (forall z, r <> Scalar z) ->
  arith f ma mb h = (Ok (PyArr (length h)), h ++ [r]).
Proof.
  intros Ea Eb Br NS. unfold arith.
  rewrite (bind_ok _ Ea), (bind_ok _ Eb). unfold bind, lift. rewrite Br.
  destruct r as [z | xs | rr cc cells]; [ now destruct (NS z) | | ];
    reflexivity.
Qed.

Lemma stretched_scalar {A : Type} (d c : A) i j : stretched d (Scalar c) i j = c.
Proof. reflexivity. Qed.

Lemma stretched_vector {A : Type} (d : A) xs i j :
  j < length xs -> stretched d (Vector xs) i j = nth j xs d.
Proof.
  intros Hj. unfold stretched. simpl.
  destruct (length xs =? 1) eqn:E; [ | reflexivity ].
  apply Nat.eqb_eq in E. now replace j with 0 by lia.
Qed.

Lemma map_nth_seq {A B : Type} (g : A -> B) (d : A) xs :
  map (fun j => g (nth j xs d)) (seq 0 (length xs)) = map g xs.
Proof.
  induction xs as [| x xs IH]; simpl; auto.
  now rewrite <- seq_shift, map_map, IH.
Qed.

Lemma map_nth_seq2 {A B C : Type} (g : A -> B -> C) (da : A) (db : B) xs :
  forall ys, length xs = length ys ->
  map (fun j => g (nth j xs da) (nth j ys db)) (seq 0 (length xs))
  = map (fun p => g (fst p) (snd p)) (combine xs ys).
Proof.
  induction xs as [| x xs IH]; intros [| y ys] L; simpl in *;
    try discriminate; auto.
  rewrite <- seq_shift, map_map. f_equal. apply IH. congruence.
Qed.

Lemma bdim_one n : bdim 1 n = Some n.
Proof. unfold bdim. destruct (1 =? n) eqn:E; auto. apply Nat.eqb_eq in E. now subst. Qed.

Lemma bdim_same n : bdim n n = Some n.
Proof. unfold bdim. now rewrite Nat.eqb_refl. Qed.

Lemma broadcast2_vectors (f : float -> float -> float) xs ys :
  length xs = length ys ->
  broadcast2 nan nan nan f (Vector xs) (Vector ys)
  = Ok (Vector (map (fun p => f (fst p) (snd p)) (combine xs ys))).
Proof.
  intros L. unfold broadcast2. simpl extents. cbv beta iota zeta.
  rewrite <- L, !bdim_same.
  simpl. rewrite app_nil_r. do 2 f_equal.
  rewrite <- (map_nth_seq2 f nan nan xs ys L).
  apply map_ext_in. intros j Ij. apply in_seq in Ij.
  rewrite !stretched_vector; auto; lia.
Qed.

Lemma broadcast2_scalar_vector (f : float -> float -> float) c ys :
  broadcast2 nan nan nan f (Scalar c) (Vector ys) = Ok (Vector (map (f c) ys)).
Proof.
  unfold broadcast2. simpl extents. cbv beta iota zeta.
  rewrite bdim_same, bdim_one.
  simpl. rewrite app_nil_r. do 2 f_equal.
  rewrite <- (map_nth_seq (f c) nan ys).
  apply map_ext_in. intros j Ij. apply in_seq in Ij.
  rewrite stretched_scalar, stretched_vector; auto; lia.
Qed.

Lemma forallb_scalars (ps : list float) :
  forallb (fun a : ndarray => match a with Scalar _ => true | _ => false end)
          (map Scalar ps) = true.
Proof. induction ps; simpl; auto. Qed.

Lemma flat_map_ravel_scalars (ps : list float) :
  flat_map ravel (map Scalar ps) = ps.
Proof. induction ps; simpl; congruence. Qed.

Lemma asarray_scalars h vs ps :
  Forall2 (fun v p => content h v = Some (Scalar p)) vs ps ->
  asarray vs h = (Ok (Vector ps), h).
Proof.
  intros F. unfold asarray.
  assert (C : comprehension read vs h = (Ok (map Scalar ps), h)).
  { induction F as [| v p vs ps Cv F IH]; simpl; auto.
    rewrite (bind_ok _ (read_run Cv)), (bind_ok _ IH). reflexivity. }
  rewrite (bind_ok _ C). destruct ps as [| p ps]; [ reflexivity | ].
  simpl. now rewrite forallb_scalars, flat_map_ravel_scalars.
Qed.
Arguments asarray_scalars {h vs ps} _.

Lemma percent_difference_map fs : forall ps,
  map (fun p => div (fst p) (snd p))
      (combine (map (mul lit_100)
                    (map (fun q => sub (fst q) (snd q)) (combine fs ps)))
               fs)
  = map (fun q => percent_difference (fst q) (snd q)) (combine fs ps).
Proof.
  induction fs as [| f fs IH]; intros [| p ps]; simpl; auto.
  now rewrite IH.
Qed.

(** Line 220 on [n] factors and [n] predictions: entry [i] is
    [100 * (factors[i] - predictions[i]) / factors[i]]. *)
Lemma line_220_run h factor_data predictions fs ps :
  content h factor_data = Some (Vector fs) ->
  Forall2 (fun v p => content h v = Some (Scalar p)) predictions ps ->
  length fs = length ps ->
  exists d1 d2,
    (diff <- arith sub (read factor_data) (asarray predictions) ;;
     scaled <- arith mul (ret (Scalar lit_100)) (read diff) ;;
     arith div (read scaled) (read factor_data)) h
    = (Ok (PyArr (length ((h ++ [d1]) ++ [d2]))),
       ((h ++ [d1]) ++ [d2])
         ++ [Vector (map (fun q => percent_difference (fst q) (snd q))
                         (combine fs ps))]).
Proof.
  intros Cf F L.
  set (d1 := Vector (map (fun q => sub (fst q) (snd q)) (combine fs ps))).
  set (d2 := Vector (map (mul lit_100)
                         (map (fun q => sub (fst q) (snd q)) (combine fs ps)))).
  exists d1, d2.
  rewrite (bind_ok _ (@arith_run sub (read factor_data) (asarray predictions)
                        h (Vector fs) (Vector ps) d1
                        (read_run Cf) (asarray_scalars F)
                        (broadcast2_vectors sub fs ps L)
                        ltac:(discriminate))).
  rewrite (bind_ok _ (@arith_run mul (ret (Scalar lit_100))
                        (read (PyArr (length h))) (h ++ [d1])
                        (Scalar lit_100) d1 d2 eq_refl
                        (read_run (content_alloc h d1))
                        (broadcast2_scalar_vector mul lit_100 _)
                        ltac:(discriminate))).
  rewrite <- percent_difference_map.
  apply (@arith_run div (read (PyArr (length (h ++ [d1])))) (read factor_data)
           ((h ++ [d1]) ++ [d2]) d2 (Vector fs)).
  - apply read_run, content_alloc.
  - apply read_run. exact (content_app [d2] (content_app [d1] Cf)).
  - apply broadcast2_vectors. rewrite !length_map, length_combine. lia.
  - discriminate.
Qed.
(** * The claims *)

(** C1.  Masking correctness asks that the output of the gated predictor
    holds not-a-number where the deformability score exceeds 0.5 and the
    spline prediction elsewhere.  The code has no output to mask: for every
    spline library, every query, every calibration set and every store,
    [spline_model_with_deformability] ends in an exception, because
    [calculate_deformability] does (lines 98 and 164 read names that are
    bound nowhere).  On the example calibration set with the stand-in
    library the exception is [NameError: initial_fit].  Line 205 itself
    masks as the claim says ([mask_rule]). *)
Theorem gated_predictor_has_no_output :
  (forall (spline : Type)
          (fit : ndarray -> ndarray -> ndarray -> option bbox -> nat -> nat
                 -> result spline)
          (surface : spline -> float -> float -> float)
          width_test ratio_test width_data ratio_data factor_data h,
      exists e h',
        spline_model_with_deformability fit surface
          width_test ratio_test width_data ratio_data factor_data h
        = (Raise e, h'))
  /\ fst (spline_model_with_deformability flat_fit flat_surface
            (PyArr 3) (PyArr 4) (PyArr 0) (PyArr 1) (PyArr 2) example_store)
     = Raise (NameError "initial_fit").
Proof.
  split.
  - intros. apply gated_never_returns.
  - vm_compute. reflexivity.
Qed.

(** C2.  The single-point computation is claimed to return
    [max((posModel - baseline)/0.02, (baseline - negModel)/0.02)].  For every
    scalar test point and calibration arrays on which the baseline fit
    succeeds, [_single_calculate_deformability] appends the test point to the
    data, takes the bounding box, fits and evaluates the baseline, and then
    stops at line 98 with [NameError: initial_fit]: neither augmented data
    set is built, nothing is refitted and no maximum is returned. *)
Theorem single_point_stops_at_line_98
    (spline : Type)
    (fit : ndarray -> ndarray -> ndarray -> option bbox -> nat -> nat
           -> result spline)
    (surface : spline -> float -> float -> float)
    h x_test y_test x_data y_data z_data x y cx cy cz xb xe yb ye s :
  content h x_test = Some (Scalar x) -> content h y_test = Some (Scalar y) ->
  content h x_data = Some cx -> content h y_data = Some cy ->
  content h z_data = Some cz ->
  py_min_list (ravel cx ++ [x]) = Ok xb ->
  py_max_list (ravel cx ++ [x]) = Ok xe ->
  py_min_list (ravel cy ++ [y]) = Ok yb ->
  py_max_list (ravel cy ++ [y]) = Ok ye ->
  fit cx cy cz (Some (xb, xe, yb, ye)) 2 1 = Ok s ->
  _single_calculate_deformability fit surface
    x_test y_test x_data y_data z_data h
  = (Raise (NameError "initial_fit"),
     ((h ++ [Vector (ravel cx ++ [x])]) ++ [Vector (ravel cy ++ [y])])
       ++ [Scalar (surface s x y)]).
Proof.
  intros Cxt Cyt Cxd Cyd Czd Exb Exe Eyb Eye Fit.
  destruct (@single_run spline fit surface h x_test y_test x_data y_data
              z_data x y cx cy cz Cxt Cyt Cxd Cyd Czd)
    as (xb' & xe' & yb' & ye' & Exb' & Exe' & Eyb' & Eye' & Run).
  rewrite Exb in Exb'. rewrite Exe in Exe'.
  rewrite Eyb in Eyb'. rewrite Eye in Eye'.
  injection Exb' as <-. injection Exe' as <-.
  injection Eyb' as <-. injection Eye' as <-.
  rewrite Run. cbv zeta. now rewrite Fit.
Qed.

Lemma single_point_stops_at_line_98_witness :
  content example_store (PyFloat (of_Z 9)) = Some (Scalar (of_Z 9))
  /\ content example_store (PyFloat (of_Z 4)) = Some (Scalar (of_Z 4))
  /\ content example_store (PyArr 0) = Some (Vector example_widths)
  /\ content example_store (PyArr 1) = Some (Vector example_ratios)
  /\ content example_store (PyArr 2) = Some (Vector example_factors)
  /\ py_min_list (example_widths ++ [of_Z 9]) = Ok (of_Z 2)
  /\ py_max_list (example_widths ++ [of_Z 9]) = Ok (of_Z 16)
  /\ py_min_list (example_ratios ++ [of_Z 4]) = Ok (of_Z 1)
  /\ py_max_list (example_ratios ++ [of_Z 4]) = Ok (of_Z 8)
  /\ flat_fit (Vector example_widths) (Vector example_ratios)
       (Vector example_factors)
       (Some (of_Z 2, of_Z 16, of_Z 1, of_Z 8)) 2 1 = Ok (of_Z 1)
  /\ _single_calculate_deformability flat_fit flat_surface
       (PyFloat (of_Z 9)) (PyFloat (of_Z 4)) (PyArr 0) (PyArr 1) (PyArr 2)
       example_store
     = (Raise (NameError "initial_fit"),
        ((example_store ++ [Vector (example_widths ++ [of_Z 9])])
            ++ [Vector (example_ratios ++ [of_Z 4])])
          ++ [Scalar (of_Z 1)]).
Proof.
  repeat (split; [ vm_compute; reflexivity | ]).
  apply (@single_point_stops_at_line_98 float flat_fit flat_surface
           example_store (PyFloat (of_Z 9)) (PyFloat (of_Z 4))
           (PyArr 0) (PyArr 1) (PyArr 2) (of_Z 9) (of_Z 4)
           (Vector example_widths) (Vector example_ratios)
           (Vector example_factors)
           (of_Z 2) (of_Z 16) (of_Z 1) (of_Z 8) (of_Z 1));
    vm_compute; reflexivity.
Defined.

(** C3.  Shape preservation asks that [calculate_deformability] and the gated
    predictor return an output of the query's shape for scalar, 1-D and 2-D
    queries.  Neither returns an output of any shape: whatever single-point
    routine the name [_single_calculate_deformability] is bound to, the
    assertion of line 164 reads the unbound name [dims], so the batched
    routine, and with it the gated predictor, always ends in an exception.
    Besides, the array the else branch builds for a [rows x cols] query has
    the shape [(cols, rows)]. *)
Theorem query_shape_is_not_delivered :
  (forall single x_test y_test x_data y_data z_data,
      never_returns
        (calculate_deformability_with single
           x_test y_test x_data y_data z_data))
  /\ (forall (spline : Type)
             (fit : ndarray -> ndarray -> ndarray -> option bbox -> nat -> nat
                    -> result spline)
             (surface : spline -> float -> float -> float)
             x_test y_test x_data y_data z_data,
         never_returns
           (calculate_deformability fit surface
              x_test y_test x_data y_data z_data))
  /\ (forall f h x_test y_test x_data y_data z_data rows cols xs ys,
         content h x_test = Some (Matrix rows cols xs) ->
         content h y_test = Some (Matrix rows cols ys) ->
         length xs = rows * cols -> length ys = rows * cols -> 0 < cols ->
         exists a,
           deformability_by_shape (pointwise f)
             x_test y_test x_data y_data z_data h
           = (Ok (PyArr (length h)), h ++ [a])
           /\ shape a = [cols; rows]).
Proof.
  split; [ | split ].
  - intros. apply calculate_deformability_with_never_returns.
  - intros. apply calculate_deformability_with_never_returns.
  - intros f h xt yt xd yd zd r c xs ys Cx Cy Lx Ly Hc.
    rewrite (@grid_by_columns f h xt yt xd yd zd r c xs ys Cx Cy Lx Ly).
    rewrite (@np_array2_by_columns r c _ h Hc).
    eexists. split; reflexivity.
Qed.

Lemma query_shape_is_not_delivered_witness :
  content example_store (PyArr 5) = Some (Matrix 1 2 query_widths)
  /\ content example_store (PyArr 6) = Some (Matrix 1 2 query_ratios)
  /\ length query_widths = 1 * 2 /\ length query_ratios = 1 * 2 /\ 0 < 2
  /\ exists a,
       deformability_by_shape (pointwise add)
         (PyArr 5) (PyArr 6) (PyArr 0) (PyArr 1) (PyArr 2) example_store
       = (Ok (PyArr (length example_store)), example_store ++ [a])
       /\ shape a = [2; 1].
Proof.
  repeat (split; [ first [ reflexivity | lia ] | ]).
  apply (proj2 (proj2 query_shape_is_not_delivered) add example_store
           (PyArr 5) (PyArr 6) (PyArr 0) (PyArr 1) (PyArr 2)
           1 2 query_widths query_ratios);
    first [ reflexivity | lia ].
Defined.

(** C4.  Every cell of a 2-D query is to be given to the single-point
    algorithm exactly once.  On every grid with at least one cell,
    [calculate_deformability] ends with the exception of the application to
    cell (0, 0), in the store that application left: no other cell is
    reached.  The comprehension itself (line 161 read without its colon,
    which Python rejects) takes [j] over the columns in the outer list and
    [i] over the rows in the inner one: with a routine that returns it makes
    one application per cell, and stores them column by column as [cols]
    rows of [rows] entries. *)
Theorem grid_cells_are_not_covered
    (spline : Type)
    (fit : ndarray -> ndarray -> ndarray -> option bbox -> nat -> nat
           -> result spline)
    (surface : spline -> float -> float -> float)
    h x_test y_test x_data y_data z_data rows cols xs ys :
  content h x_test = Some (Matrix rows cols xs) ->
  content h y_test = Some (Matrix rows cols ys) ->
  length xs = rows * cols -> length ys = rows * cols ->
  0 < rows -> 0 < cols ->
  (exists e h',
      _single_calculate_deformability fit surface
        (PyFloat (nth 0 xs nan)) (PyFloat (nth 0 ys nan))
        x_data y_data z_data h = (Raise e, h')
      /\ calculate_deformability fit surface
           x_test y_test x_data y_data z_data h = (Raise e, h'))
  /\ (forall f,
         deformability_by_shape (pointwise f)
           x_test y_test x_data y_data z_data h
         = (Ok (PyArr (length h)),
            h ++ [Matrix cols rows
                    (concat
                       (by_columns rows cols
                          (fun i j => f (nth (i * cols + j) xs nan)
                                        (nth (i * cols + j) ys nan))))])).
Proof.
  intros Cx Cy Lx Ly Hr Hc. split.
  - destruct (single_never_returns fit surface
                (PyFloat (nth 0 xs nan)) (PyFloat (nth 0 ys nan))
                x_data y_data z_data h) as (e & h' & E).
    exists e, h'. split; [ exact E | ].
    unfold calculate_deformability, calculate_deformability_with.
    apply bind_raise.
    exact (@grid_first_cell _ h x_test y_test x_data y_data z_data
             rows cols xs ys e h' Cx Cy Lx Ly Hr Hc E).
  - intros f.
    rewrite (@grid_by_columns f h x_test y_test x_data y_data z_data
               rows cols xs ys Cx Cy Lx Ly).
    apply np_array2_by_columns, Hc.
Qed.

Lemma grid_cells_are_not_covered_witness :
  content example_store (PyArr 5) = Some (Matrix 1 2 query_widths)
  /\ content example_store (PyArr 6) = Some (Matrix 1 2 query_ratios)
  /\ length query_widths = 1 * 2 /\ length query_ratios = 1 * 2
  /\ 0 < 1 /\ 0 < 2
  /\ (exists e h',
         _single_calculate_deformability flat_fit flat_surface
           (PyFloat (of_Z 3)) (PyFloat (of_Z 2))
           (PyArr 0) (PyArr 1) (PyArr 2) example_store = (Raise e, h')
         /\ calculate_deformability flat_fit flat_surface
              (PyArr 5) (PyArr 6) (PyArr 0) (PyArr 1) (PyArr 2) example_store
            = (Raise e, h'))
  /\ (forall f,
         deformability_by_shape (pointwise f)
           (PyArr 5) (PyArr 6) (PyArr 0) (PyArr 1) (PyArr 2) example_store
         = (Ok (PyArr 8),
            example_store
              ++ [Matrix 2 1 [f (of_Z 3) (of_Z 2); f (of_Z 5) (of_Z 2)]])).
Proof.
  repeat (split; [ first [ reflexivity | lia ] | ]).
  apply (@grid_cells_are_not_covered float flat_fit flat_surface example_store
           (PyArr 5) (PyArr 6) (PyArr 0) (PyArr 1) (PyArr 2)
           1 2 query_widths query_ratios);
    first [ reflexivity | lia ].
Defined.

(** C5.  The leave-one-out routine is claimed to return, for a calibration
    set of length [n], the [n] percent differences.  For every calibration
    set with at least one point it returns nothing: the first fold calls the
    gated predictor, which raises. *)
Theorem percent_differences_are_not_returned
    (spline : Type)
    (fit : ndarray -> ndarray -> ndarray -> option bbox -> nat -> nat
           -> result spline)
    (surface : spline -> float -> float -> float)
    h width_data ratio_data factor_data ws :
  content h width_data = Some (Vector ws) -> ws <> [] ->
  exists e h',
    calculate_percent_prediction_differences fit surface
      width_data ratio_data factor_data h = (Raise e, h').
Proof.
  intros Cw NE. destruct ws as [| w ws]; [ congruence | ].
  apply (@percent_raises spline fit surface h width_data ratio_data
           factor_data (length ws)).
  exact (py_len_run Cw).
Qed.

Lemma percent_differences_are_not_returned_witness :
  content example_store (PyArr 0) = Some (Vector example_widths)
  /\ example_widths <> []
  /\ exists e h',
       calculate_percent_prediction_differences flat_fit flat_surface
         (PyArr 0) (PyArr 1) (PyArr 2) example_store = (Raise e, h').
Proof.
  split; [ reflexivity | ]. split; [ discriminate | ].
  apply (@percent_differences_are_not_returned float flat_fit flat_surface
           example_store (PyArr 0) (PyArr 1) (PyArr 2) example_widths);
    [ reflexivity | discriminate ].
Defined.

Section Box.

Variable spline : Type.
Variable fit :
  ndarray -> ndarray -> ndarray -> option bbox -> nat -> nat -> result spline.
Variable surface : spline -> float -> float -> float.

(** The box of lines 50-54 is the one [spline_model] fits with. *)
Lemma spline_model_fits_in_box h wt rt wd rd fd cwd crd cfd box :
  content h wd = Some cwd -> content h rd = Some crd ->
  content h fd = Some cfd ->
  spline_model_bbox wt rt wd rd h = (Ok box, h) ->
  spline_model fit surface wt rt wd rd fd h
  = (s <- lift (fit cwd crd cfd (Some box) 2 1) ;; ev surface s wt rt) h.
Proof.
  intros Cwd Crd Cfd B. unfold spline_model.
  rewrite (bind_ok _ B). apply bind_ext; [ | reflexivity ].
  now rewrite (fit_run fit (Some box) 2 1 Cwd Crd Cfd).
Qed.

(** The box of lines 91-93 is the one the baseline of
    [_single_calculate_deformability] is fitted with; the call ends at the
    first use of [initial_fit]. *)
Lemma single_fits_in_box h xt yt xd yd zd cxt cyt cxd cyd czd box :
  content h xt = Some cxt -> content h yt = Some cyt ->
  content h xd = Some cxd -> content h yd = Some cyd ->
  content h zd = Some czd ->
  let h2 := (h ++ [Vector (ravel cxd ++ ravel cxt)])
              ++ [Vector (ravel cyd ++ ravel cyt)] in
  (ax <- np_append xd xt ;; ay <- np_append yd yt ;; single_bbox ax ay) h
  = (Ok box, h2) ->
  _single_calculate_deformability fit surface xt yt xd yd zd h
  = (s0 <- lift (fit cxd cyd czd (Some box) 2 1) ;;
     _ <- ev surface s0 xt yt ;;
     unbound "initial_fit") h2.
Proof.
  intros Cxt Cyt Cxd Cyd Czd h2. subst h2.
  set (ax := Vector (ravel cxd ++ ravel cxt)) in *.
  set (ay := Vector (ravel cyd ++ ravel cyt)) in *.
  unfold _single_calculate_deformability.
  rewrite !(bind_ok _ (np_append_run Cxd Cxt)).
  rewrite !(bind_ok _ (np_append_run (content_app [ax] Cyd)
                                     (content_app [ax] Cyt))).
  fold ax ay. intros B. rewrite (bind_ok _ B).
  apply bind_ext.
  - now rewrite (fit_run fit (Some box) 2 1
                   (content_app [ay] (content_app [ax] Cxd))
                   (content_app [ay] (content_app [ax] Cyd))
                   (content_app [ay] (content_app [ax] Czd))).
  - intros s0 g. apply bind_ext; reflexivity.
Qed.

End Box.

Lemma app_not_nil {A : Type} (xs ys : list A) : xs <> [] -> xs ++ ys <> [].
Proof. destruct xs; simpl; congruence. Qed.

(** C6, as amended.  The bounding box of a fit spans the calibration data
    and the query on each axis, for calibration arrays and queries (of any
    shape) that have elements, none of them not-a-number:
    - the box [spline_model] computes (lines 50-54) is
      [min(data ++ query), max(data ++ query)] in widths and in ratios: each
      bound is an element of the data or the query, and no element of either
      lies outside; [spline_model] fits with exactly this box;
    - the box [_single_calculate_deformability] computes (lines 88-93) from
      the data with the test point appended has the same property, and the
      baseline is fitted with exactly this box.
    Without the two conditions the property fails
    ([bounding_box_fails_on_nan_or_empty]). *)
Theorem bounding_box_spans_data_and_query
    (spline : Type)
    (fit : ndarray -> ndarray -> ndarray -> option bbox -> nat -> nat
           -> result spline)
    (surface : spline -> float -> float -> float)
    h width_test ratio_test width_data ratio_data factor_data wt rt wd rd fd :
  content h width_test = Some wt -> content h ratio_test = Some rt ->
  content h width_data = Some wd -> content h ratio_data = Some rd ->
  content h factor_data = Some fd ->
  ravel wt <> [] -> ravel rt <> [] -> ravel wd <> [] -> ravel rd <> [] ->
  nan_free (ravel wd ++ ravel wt) -> nan_free (ravel rd ++ ravel rt) ->
  (exists xb xe yb ye,
      spline_model_bbox width_test ratio_test width_data ratio_data h
      = (Ok (xb, xe, yb, ye), h)
      /\ is_min_of xb (ravel wd ++ ravel wt)
      /\ is_max_of xe (ravel wd ++ ravel wt)
      /\ is_min_of yb (ravel rd ++ ravel rt)
      /\ is_max_of ye (ravel rd ++ ravel rt)
      /\ spline_model fit surface
           width_test ratio_test width_data ratio_data factor_data h
         = (s <- lift (fit wd rd fd (Some (xb, xe, yb, ye)) 2 1) ;;
            ev surface s width_test ratio_test) h)
  /\ (exists xb xe yb ye,
         let h2 := (h ++ [Vector (ravel wd ++ ravel wt)])
                     ++ [Vector (ravel rd ++ ravel rt)] in
         (ax <- np_append width_data width_test ;;
          ay <- np_append ratio_data ratio_test ;;
          single_bbox ax ay) h
         = (Ok (xb, xe, yb, ye), h2)
         /\ is_min_of xb (ravel wd ++ ravel wt)
         /\ is_max_of xe (ravel wd ++ ravel wt)
         /\ is_min_of yb (ravel rd ++ ravel rt)
         /\ is_max_of ye (ravel rd ++ ravel rt)
         /\ _single_calculate_deformability fit surface
              width_test ratio_test width_data ratio_data factor_data h
            = (s0 <- lift (fit wd rd fd (Some (xb, xe, yb, ye)) 2 1) ;;
               _ <- ev surface s0 width_test ratio_test ;;
               unbound "initial_fit") h2).
Proof.
  intros Cwt Crt Cwd Crd Cfd Nwt Nrt Nwd Nrd NFw NFr. split.
  - destruct (@spline_model_bbox_run h width_test ratio_test width_data
                ratio_data wt rt wd rd Cwt Crt Cwd Crd Nwt Nrt Nwd Nrd NFw NFr)
      as (xb & xe & yb & ye & B & Hxb & Hxe & Hyb & Hye).
    exists xb, xe, yb, ye. repeat (split; [ assumption | ]).
    exact (@spline_model_fits_in_box spline fit surface h width_test
             ratio_test width_data ratio_data factor_data wd rd fd
             (xb, xe, yb, ye) Cwd Crd Cfd B).
  - set (ax := Vector (ravel wd ++ ravel wt)).
    set (ay := Vector (ravel rd ++ ravel rt)).
    destruct (@single_bbox_run ((h ++ [ax]) ++ [ay])
                (PyArr (length h)) (PyArr (length (h ++ [ax])))
                (ravel wd ++ ravel wt) (ravel rd ++ ravel rt))
      as (xb & xe & yb & ye & B & Hxb & Hxe & Hyb & Hye);
      auto using app_not_nil.
    { apply content_app, content_alloc. }
    { apply content_alloc. }
    exists xb, xe, yb, ye. cbv zeta. fold ax ay.
    assert (Run : (a <- np_append width_data width_test ;;
                   b <- np_append ratio_data ratio_test ;;
                   single_bbox a b) h
                  = (Ok (xb, xe, yb, ye), (h ++ [ax]) ++ [ay])).
    { rewrite (bind_ok _ (np_append_run Cwd Cwt)).
      rewrite (bind_ok _ (np_append_run (content_app [ax] Crd)
                                        (content_app [ax] Crt))).
      exact B. }
    repeat (split; [ assumption | ]).
    exact (@single_fits_in_box spline fit surface h width_test ratio_test
             width_data ratio_data factor_data wt rt wd rd fd
             (xb, xe, yb, ye) Cwt Crt Cwd Crd Cfd Run).
Qed.

Lemma bounding_box_spans_data_and_query_witness :
  nan_free (example_widths ++ wide_widths)
  /\ nan_free (example_ratios ++ wide_ratios)
  /\ spline_model_bbox (PyArr 8) (PyArr 9) (PyArr 0) (PyArr 1) wide_store
     = (Ok (of_Z 1, of_Z 20, of_Z 0, of_Z 9), wide_store)
  /\ (ax <- np_append (PyArr 0) (PyArr 8) ;;
      ay <- np_append (PyArr 1) (PyArr 9) ;;
      single_bbox ax ay) wide_store
     = (Ok (of_Z 1, of_Z 20, of_Z 0, of_Z 9),
        (wide_store ++ [Vector (example_widths ++ wide_widths)])
          ++ [Vector (example_ratios ++ wide_ratios)])
  /\ is_min_of (of_Z 1) (example_widths ++ wide_widths)
  /\ is_max_of (of_Z 20) (example_widths ++ wide_widths)
  /\ is_min_of (of_Z 0) (example_ratios ++ wide_ratios)
  /\ is_max_of (of_Z 9) (example_ratios ++ wide_ratios).
Proof.
  assert (NFw : nan_free (example_widths ++ wide_widths))
    by (repeat constructor).
  assert (NFr : nan_free (example_ratios ++ wide_ratios))
    by (repeat constructor).
  split; [ exact NFw | ]. split; [ exact NFr | ].
  destruct (@bounding_box_spans_data_and_query float flat_fit flat_surface
              wide_store (PyArr 8) (PyArr 9) (PyArr 0) (PyArr 1) (PyArr 2)
              (Vector wide_widths) (Vector wide_ratios)
              (Vector example_widths) (Vector example_ratios)
              (Vector example_factors)
              eq_refl eq_refl eq_refl eq_refl eq_refl
              ltac:(discriminate) ltac:(discriminate)
              ltac:(discriminate) ltac:(discriminate) NFw NFr)
    as [(xb & xe & yb & ye & B & H1 & H2 & H3 & H4 & _) _].
  assert (E : spline_model_bbox (PyArr 8) (PyArr 9) (PyArr 0) (PyArr 1)
                wide_store
              = (Ok (of_Z 1, of_Z 20, of_Z 0, of_Z 9), wide_store))
    by (vm_compute; reflexivity).
  rewrite E in B. injection B as <- <- <- <-.
  split; [ exact E | ].
  split; [ vm_compute; reflexivity | auto ].
Defined.

(** C6 as it was stated, for every calibration set and every query, fails.
    With a not-a-number among the calibration widths, no box of
    [spline_model] is the minimum and maximum of the widths: both width
    bounds are not-a-number, and no width compares within them.  With an
    empty array, [spline_model] raises [ValueError] and has no box. *)
Lemma bounding_box_fails_on_nan_or_empty :
  ~ (exists xb xe yb ye,
        spline_model_bbox (PyFloat (of_Z 2)) (PyFloat (of_Z 2))
          (PyArr 0) (PyArr 1) nan_store
        = (Ok (xb, xe, yb, ye), nan_store)
        /\ is_min_of xb ([of_Z 1; nan; of_Z 3] ++ [of_Z 2])
        /\ is_max_of xe ([of_Z 1; nan; of_Z 3] ++ [of_Z 2]))
  /\ spline_model_bbox (PyFloat (of_Z 2)) (PyFloat (of_Z 2))
       (PyArr 0) (PyArr 1) nan_store
     = (Ok (nan, nan, of_Z 1, of_Z 3), nan_store)
  /\ leb nan (of_Z 1) = false
  /\ spline_model_bbox (PyArr 0) (PyArr 0) (PyArr 0) (PyArr 0) empty_store
     = (Raise ValueError, empty_store).
Proof.
  assert (E : spline_model_bbox (PyFloat (of_Z 2)) (PyFloat (of_Z 2))
                (PyArr 0) (PyArr 1) nan_store
              = (Ok (nan, nan, of_Z 1, of_Z 3), nan_store))
    by (vm_compute; reflexivity).
  split; [ | split; [ exact E | split; reflexivity ] ].
  intros (xb & xe & yb & ye & B & (_ & Low) & _).
  rewrite E in B. injection B as <- <- <- <-.
  inversion Low as [| ? ? First _]. discriminate First.
Qed.

(** C7.  A calibration factor of zero is claimed to give a well-defined
    non-finite entry rather than a crash.  The division of line 220 would do
    so (a quotient by zero is an infinity or not-a-number), but the call
    never gets there: with a zero factor among the calibration points, as
    with any calibration point at all, it ends in the exception of the gated
    predictor. *)
Theorem zero_factor_ends_in_an_exception
    (spline : Type)
    (fit : ndarray -> ndarray -> ndarray -> option bbox -> nat -> nat
           -> result spline)
    (surface : spline -> float -> float -> float)
    h width_data ratio_data factor_data ws fs i s :
  content h width_data = Some (Vector ws) ->
  content h factor_data = Some (Vector fs) ->
  length ws = length fs ->
  nth_error fs i = Some (S754_zero s) ->
  (exists e h',
      calculate_percent_prediction_differences fit surface
        width_data ratio_data factor_data h = (Raise e, h'))
  /\ (forall prediction,
         is_finite (percent_difference (S754_zero s) prediction) = false).
Proof.
  intros Cw Cf L Z. split.
  - destruct ws as [| w ws].
    + destruct fs; [ destruct i; discriminate | discriminate ].
    + apply (@percent_raises spline fit surface h width_data ratio_data
               factor_data (length ws)).
      exact (py_len_run Cw).
  - intros p. apply percent_difference_zero_factor.
Qed.

Lemma zero_factor_ends_in_an_exception_witness :
  content example_store (PyArr 0) = Some (Vector example_widths)
  /\ content example_store (PyArr 7) = Some (Vector factors_with_zero)
  /\ length example_widths = length factors_with_zero
  /\ nth_error factors_with_zero 2 = Some (S754_zero false)
  /\ (exists e h',
         calculate_percent_prediction_differences flat_fit flat_surface
           (PyArr 0) (PyArr 1) (PyArr 7) example_store = (Raise e, h'))
  /\ (forall prediction,
         is_finite (percent_difference (S754_zero false) prediction) = false).
Proof.
  repeat (split; [ reflexivity | ]).
  apply (@zero_factor_ends_in_an_exception float flat_fit flat_surface
           example_store (PyArr 0) (PyArr 1) (PyArr 7)
           example_widths factors_with_zero 2 false);
    reflexivity.
Defined.

(** C8.  Every operation is deterministic and free of side effects.  Take
    two stores and, in each, arguments that denote the same arrays.  Each of
    [spline_model], [calculate_deformability],
    [spline_model_with_deformability] and
    [calculate_percent_prediction_differences] then ends alike in both: in
    the same exception, or in results that denote the same array; and in
    both runs every array object that was in the store before the call is
    unchanged after it. *)
Theorem operations_are_deterministic
    (spline : Type)
    (fit : ndarray -> ndarray -> ndarray -> option bbox -> nat -> nat
           -> result spline)
    (surface : spline -> float -> float -> float)
    h1 h2 wt1 wt2 rt1 rt2 wd1 wd2 rd1 rd2 fd1 fd2 :
  agree h1 h2 wt1 wt2 -> agree h1 h2 rt1 rt2 ->
  agree h1 h2 wd1 wd2 -> agree h1 h2 rd1 rd2 -> agree h1 h2 fd1 fd2 ->
  sim agree (spline_model fit surface wt1 rt1 wd1 rd1 fd1)
            (spline_model fit surface wt2 rt2 wd2 rd2 fd2) h1 h2
  /\ sim agree (calculate_deformability fit surface wt1 rt1 wd1 rd1 fd1)
               (calculate_deformability fit surface wt2 rt2 wd2 rd2 fd2) h1 h2
  /\ sim agree
       (spline_model_with_deformability fit surface wt1 rt1 wd1 rd1 fd1)
       (spline_model_with_deformability fit surface wt2 rt2 wd2 rd2 fd2) h1 h2
  /\ sim agree
       (calculate_percent_prediction_differences fit surface wd1 rd1 fd1)
       (calculate_percent_prediction_differences fit surface wd2 rd2 fd2)
       h1 h2.
Proof.
  intros Awt Art Awd Ard Afd. split; [ | split; [ | split ] ].
  - now apply sim_spline_model.
  - apply sim_calculate_deformability_with; auto.
    intros. now apply sim_single.
  - now apply sim_gated.
  - now apply sim_percent.
Qed.

Lemma operations_are_deterministic_witness :
  agree example_store shifted_store (PyArr 3) (PyArr 4)
  /\ agree example_store shifted_store (PyArr 4) (PyArr 5)
  /\ agree example_store shifted_store (PyArr 0) (PyArr 1)
  /\ agree example_store shifted_store (PyArr 1) (PyArr 2)
  /\ agree example_store shifted_store (PyArr 2) (PyArr 3)
  /\ sim agree
       (spline_model flat_fit flat_surface
          (PyArr 3) (PyArr 4) (PyArr 0) (PyArr 1) (PyArr 2))
       (spline_model flat_fit flat_surface
          (PyArr 4) (PyArr 5) (PyArr 1) (PyArr 2) (PyArr 3))
       example_store shifted_store
  /\ sim agree
       (calculate_percent_prediction_differences flat_fit flat_surface
          (PyArr 0) (PyArr 1) (PyArr 2))
       (calculate_percent_prediction_differences flat_fit flat_surface
          (PyArr 1) (PyArr 2) (PyArr 3))
       example_store shifted_store.
Proof.
  assert (A3 : agree example_store shifted_store (PyArr 3) (PyArr 4))
    by (eexists; split; reflexivity).
  assert (A4 : agree example_store shifted_store (PyArr 4) (PyArr 5))
    by (eexists; split; reflexivity).
  assert (A0 : agree example_store shifted_store (PyArr 0) (PyArr 1))
    by (eexists; split; reflexivity).
  assert (A1 : agree example_store shifted_store (PyArr 1) (PyArr 2))
    by (eexists; split; reflexivity).
  assert (A2 : agree example_store shifted_store (PyArr 2) (PyArr 3))
    by (eexists; split; reflexivity).
  repeat (split; [ assumption | ]).
  destruct (@operations_are_deterministic float flat_fit flat_surface
              example_store shifted_store
              (PyArr 3) (PyArr 4) (PyArr 4) (PyArr 5) (PyArr 0) (PyArr 1)
              (PyArr 1) (PyArr 2) (PyArr 2) (PyArr 3) A3 A4 A0 A1 A2)
    as (S1 & _ & _ & S4).
  exact (conj S1 S4).
Defined.

(** C9.  No operation mutates an array of its caller.  Whatever the store and
    the arguments, an array object that is in the store before a call to
    [spline_model], [_single_calculate_deformability],
    [calculate_deformability], [spline_model_with_deformability] or
    [calculate_percent_prediction_differences] is in it, unchanged, after the
    call: [np.append] and [np.delete] make new arrays.  The same holds of
    lines 201-207 run for any value of [deformability]: the item assignment
    of line 205 writes into the array that [spline_model] has just made. *)
Theorem caller_arrays_are_not_mutated
    (spline : Type)
    (fit : ndarray -> ndarray -> ndarray -> option bbox -> nat -> nat
           -> result spline)
    (surface : spline -> float -> float -> float)
    h wt rt wd rd fd d l a :
  nth_error h l = Some a ->
  nth_error (snd (spline_model fit surface wt rt wd rd fd h)) l = Some a
  /\ nth_error
       (snd (_single_calculate_deformability fit surface wt rt wd rd fd h)) l
     = Some a
  /\ nth_error (snd (calculate_deformability fit surface wt rt wd rd fd h)) l
     = Some a
  /\ nth_error
       (snd (spline_model_with_deformability fit surface wt rt wd rd fd h)) l
     = Some a
  /\ nth_error
       (snd (calculate_percent_prediction_differences fit surface wd rd fd h))
       l
     = Some a
  /\ nth_error
       (snd ((model_factor <- spline_model fit surface wt rt wd rd fd ;;
              mask <- np_gt d lit_0_5 ;;
              setitem_mask model_factor mask nan ;;
              ret model_factor) h)) l
     = Some a.
Proof.
  intros In_h.
  repeat (split; [ eapply extends_nth_error; [ | exact In_h ] | ]).
  - apply grows_spline_model.
  - apply grows_single.
  - apply grows_calculate_deformability.
  - apply grows_gated.
  - apply grows_percent.
  - eapply extends_nth_error; [ | exact In_h ]. apply gate_frame.
Qed.

Lemma caller_arrays_are_not_mutated_witness :
  nth_error example_store 2 = Some (Vector example_factors)
  /\ nth_error
       (snd (spline_model flat_fit flat_surface
               (PyArr 3) (PyArr 4) (PyArr 0) (PyArr 1) (PyArr 2)
               example_store)) 2
     = Some (Vector example_factors)
  /\ nth_error
       (snd ((model_factor <- spline_model flat_fit flat_surface
                                (PyArr 3) (PyArr 4)
                                (PyArr 0) (PyArr 1) (PyArr 2) ;;
              mask <- np_gt (PyArr 3) lit_0_5 ;;
              setitem_mask model_factor mask nan ;;
              ret model_factor) example_store)) 2
     = Some (Vector example_factors).
Proof.
  split; [ reflexivity | ].
  destruct (@caller_arrays_are_not_mutated float flat_fit flat_surface
              example_store (PyArr 3) (PyArr 4) (PyArr 0) (PyArr 1) (PyArr 2)
              (PyArr 3) 2 (Vector example_factors) eq_refl)
    as (S1 & _ & _ & _ & _ & S6).
  exact (conj S1 S6).
Defined.

(** C10.  The claim derives not-a-number entries of the percent differences
    from invalid leave-one-out predictions.  Line 220 would propagate a
    not-a-number prediction, but no prediction is ever made: whenever
    [calculate_percent_prediction_differences] returns, the calibration set
    has length zero and the returned array has no entry at all, so the output
    never holds a non-finite entry. *)
Theorem percent_differences_hold_no_entry
    (spline : Type)
    (fit : ndarray -> ndarray -> ndarray -> option bbox -> nat -> nat
           -> result spline)
    (surface : spline -> float -> float -> float)
    h width_data ratio_data factor_data v h' :
  calculate_percent_prediction_differences fit surface
    width_data ratio_data factor_data h = (Ok v, h') ->
  py_len width_data h = (Ok 0, h)
  /\ (exists a, content h' v = Some a /\ ravel a = [])
  /\ (forall factor, percent_difference factor nan = nan).
Proof.
  intros Run.
  destruct (@percent_returns_nothing spline fit surface h width_data
              ratio_data factor_data v h' Run) as (L & E).
  repeat split; auto. apply percent_difference_of_nan.
Qed.

Lemma percent_differences_hold_no_entry_witness :
  calculate_percent_prediction_differences flat_fit flat_surface
    (PyArr 0) (PyArr 0) (PyArr 0) empty_store
  = (Ok (PyArr 3), [Vector []; Vector []; Vector []; Vector []])
  /\ py_len (PyArr 0) empty_store = (Ok 0, empty_store)
  /\ (exists a,
         content [Vector []; Vector []; Vector []; Vector []] (PyArr 3)
         = Some a /\ ravel a = [])
  /\ (forall factor, percent_difference factor nan = nan).
Proof.
  split; [ reflexivity | ].
  apply (@percent_differences_hold_no_entry float flat_fit flat_surface
           empty_store (PyArr 0) (PyArr 0) (PyArr 0) (PyArr 3)
           [Vector []; Vector []; Vector []; Vector []]).
  reflexivity.
Defined.

(** * Further properties of the module *)

(** ** Reductions on any non-empty list, and not-a-number *)

Lemma np_reduce_ok op xs : xs <> [] -> exists m, np_reduce op xs = Ok m.
Proof. destruct xs; [ congruence | simpl; eauto ]. Qed.

Lemma ltb_nan_r x : ltb x nan = false.
Proof. now destruct x. Qed.

Lemma ltb_nan_l x : ltb nan x = false.
Proof. reflexivity. Qed.

Lemma is_nan_eq x : is_nan x = true -> x = nan.
Proof. now destruct x. Qed.

Lemma fold_np_minimum_nan xs : fold_left np_minimum xs nan = nan.
Proof. induction xs; simpl; auto. Qed.

Lemma fold_np_maximum_nan xs : fold_left np_maximum xs nan = nan.
Proof. induction xs; simpl; auto. Qed.

Lemma fold_np_minimum_meets_nan xs : forall a,
  In nan xs -> fold_left np_minimum xs a = nan.
Proof.
  induction xs as [| x xs IH]; intros a []; simpl.
  - subst x. unfold np_minimum at 2.
    destruct (is_nan a) eqn:N.
    + rewrite (is_nan_eq a N). apply fold_np_minimum_nan.
    + rewrite ltb_nan_r. apply fold_np_minimum_nan.
  - now apply IH.
Qed.

Lemma fold_np_maximum_meets_nan xs : forall a,
  In nan xs -> fold_left np_maximum xs a = nan.
Proof.
  induction xs as [| x xs IH]; intros a []; simpl.
  - subst x. unfold np_maximum at 2.
    destruct (is_nan a) eqn:N.
    + rewrite (is_nan_eq a N). apply fold_np_maximum_nan.
    + rewrite ltb_nan_l. apply fold_np_maximum_nan.
  - now apply IH.
Qed.

Lemma np_min_list_nan xs : In nan xs -> np_min_list xs = Ok nan.
Proof.
  destruct xs as [| x xs]; intros []; unfold np_min_list; simpl; f_equal.
  - subst x. apply fold_np_minimum_nan.
  - now apply fold_np_minimum_meets_nan.
Qed.

Lemma np_max_list_nan xs : In nan xs -> np_max_list xs = Ok nan.
Proof.
  destruct xs as [| x xs]; intros []; unfold np_max_list; simpl; f_equal.
  - subst x. apply fold_np_maximum_nan.
  - now apply fold_np_maximum_meets_nan.
Qed.

(** The built-in reductions pass over not-a-number once they hold a number. *)
Lemma fold_py_min_skips_nan xs : forall m,
  is_nan m = false ->
  fold_left py_min_step xs m = fold_left py_min_step (filter number xs) m.
Proof.
  induction xs as [| x xs IH]; intros m Nm; simpl; auto.
  unfold number at 1. destruct (is_nan x) eqn:Nx; simpl.
  - rewrite (is_nan_eq x Nx). unfold py_min_step at 2. rewrite ltb_nan_l.
    now apply IH.
  - apply IH. unfold py_min_step. now destruct (ltb x m).
Qed.

Lemma fold_py_max_skips_nan xs : forall m,
  is_nan m = false ->
  fold_left py_max_step xs m = fold_left py_max_step (filter number xs) m.
Proof.
  induction xs as [| x xs IH]; intros m Nm; simpl; auto.
  unfold number at 1. destruct (is_nan x) eqn:Nx; simpl.
  - rewrite (is_nan_eq x Nx). unfold py_max_step at 2. rewrite ltb_nan_r.
    now apply IH.
  - apply IH. unfold py_max_step. now destruct (ltb m x).
Qed.

Lemma nan_free_filter x xs :
  is_nan x = false -> nan_free (x :: filter number xs).
Proof.
  intros Nx. constructor; auto. apply Forall_forall. intros y Iy.
  apply filter_In in Iy. destruct Iy as (_ & Ny). unfold number in Ny.
  now destruct (is_nan y).
Qed.

(** ** [spline_model] *)

Lemma spline_model_bbox_total h wt rt wd rd a b qa qb :
  content h wt = Some qa -> content h rt = Some qb ->
  content h wd = Some a -> content h rd = Some b ->
  ravel qa <> [] -> ravel qb <> [] -> ravel a <> [] -> ravel b <> [] ->
  exists xb xe yb ye,
    spline_model_bbox wt rt wd rd h = (Ok (xb, xe, yb, ye), h)
    /\ (exists m n, np_min_list (ravel a) = Ok m
                    /\ np_min_list (ravel qa) = Ok n
                    /\ np_min_list [m; n] = Ok xb)
    /\ (exists m n, np_max_list (ravel a) = Ok m
                    /\ np_max_list (ravel qa) = Ok n
                    /\ np_max_list [m; n] = Ok xe).
Proof.
  intros Cwt Crt Cwd Crd Nqa Nqb Na Nb.
  destruct (np_reduce_ok np_minimum Na) as (a0 & A0).
  destruct (np_reduce_ok np_minimum Nqa) as (q0 & Q0).
  destruct (np_reduce_ok np_maximum Na) as (a1 & A1).
  destruct (np_reduce_ok np_maximum Nqa) as (q1 & Q1).
  destruct (np_reduce_ok np_minimum Nb) as (b0 & B0).
  destruct (np_reduce_ok np_minimum Nqb) as (p0 & P0).
  destruct (np_reduce_ok np_maximum Nb) as (b1 & B1).
  destruct (np_reduce_ok np_maximum Nqb) as (p1 & P1).
  exists (np_minimum a0 q0), (np_maximum a1 q1),
         (np_minimum b0 p0), (np_maximum b1 p1).
  split; [ | split; [ exists a0, q0 | exists a1, q1 ]; auto ].
  unfold spline_model_bbox, bind, lift.
  rewrite (np_min_run Cwd), (np_min_run Cwt), (np_max_run Cwd),
          (np_max_run Cwt), (np_min_run Crd), (np_min_run Crt),
          (np_max_run Crd), (np_max_run Crt).
  unfold np_min_list, np_max_list in *.
  rewrite A0, Q0, A1, Q1, B0, P0, B1, P1. reflexivity.
Qed.

Lemma ev_run_vectors {spline : Type}
    (surface : spline -> float -> float -> float) s h xi yi xs ys :
  content h xi = Some (Vector xs) -> content h yi = Some (Vector ys) ->
  length xs = length ys ->
  ev surface s xi yi h
  = (Ok (PyArr (length h)),
     h ++ [Vector (map (fun p => surface s (fst p) (snd p)) (combine xs ys))]).
Proof.
  intros Cx Cy L. unfold ev.
  rewrite (bind_ok _ (read_run Cx)), (bind_ok _ (read_run Cy)).
  unfold bind, lift. now rewrite (broadcast2_vectors (surface s) xs ys L).
Qed.

(** X1.  On a vector query of [n >= 1] points, [spline_model] computes its
    box and fits once.  If the fit fails its exception is passed on and the
    store is as before; otherwise the result is one new array of [n] entries,
    the fitted surface at each query point, in the order of the query. *)
Theorem spline_model_evaluates_the_fit
    (spline : Type)
    (fit : ndarray -> ndarray -> ndarray -> option bbox -> nat -> nat
           -> result spline)
    (surface : spline -> float -> float -> float)
    h width_test ratio_test width_data ratio_data factor_data ws rs a b c :
  content h width_test = Some (Vector ws) ->
  content h ratio_test = Some (Vector rs) ->
  content h width_data = Some a -> content h ratio_data = Some b ->
  content h factor_data = Some c ->
  length ws = length rs -> ws <> [] -> ravel a <> [] -> ravel b <> [] ->
  exists box,
    spline_model_bbox width_test ratio_test width_data ratio_data h
    = (Ok box, h)
    /\ spline_model fit surface
         width_test ratio_test width_data ratio_data factor_data h
       = match fit a b c (Some box) 2 1 with
         | Raise e => (Raise e, h)
         | Ok s =>
             (Ok (PyArr (length h)),
              h ++ [Vector (map (fun p => surface s (fst p) (snd p))
                                (combine ws rs))])
         end.
Proof.
  intros Cwt Crt Cwd Crd Cfd L Nw Na Nb.
  assert (Nr : rs <> []) by (destruct ws, rs; simpl in *; congruence).
  destruct (@spline_model_bbox_total h width_test ratio_test width_data
              ratio_data a b (Vector ws) (Vector rs)
              Cwt Crt Cwd Crd Nw Nr Na Nb)
    as (xb & xe & yb & ye & B & _).
  exists (xb, xe, yb, ye). split; [ exact B | ].
  rewrite (@spline_model_fits_in_box spline fit surface h width_test
             ratio_test width_data ratio_data factor_data a b c
             (xb, xe, yb, ye) Cwd Crd Cfd B).
  unfold bind at 1. unfold lift.
  match goal with
  | |- context [fit ?x ?y ?z ?bx ?kx ?ky] =>
      destruct (fit x y z bx kx ky) as [s | e]
  end; [ now apply ev_run_vectors | reflexivity ].
Qed.

Lemma spline_model_evaluates_the_fit_witness :
  content example_store (PyArr 3) = Some (Vector query_widths)
  /\ content example_store (PyArr 4) = Some (Vector query_ratios)
  /\ length query_widths = length query_ratios
  /\ exists box,
       spline_model_bbox (PyArr 3) (PyArr 4) (PyArr 0) (PyArr 1) example_store
       = (Ok box, example_store)
       /\ spline_model flat_fit flat_surface
            (PyArr 3) (PyArr 4) (PyArr 0) (PyArr 1) (PyArr 2) example_store
          = match flat_fit (Vector example_widths) (Vector example_ratios)
                    (Vector example_factors) (Some box) 2 1 with
            | Raise e => (Raise e, example_store)
            | Ok s =>
                (Ok (PyArr (length example_store)),
                 example_store
                   ++ [Vector (map (fun p => flat_surface s (fst p) (snd p))
                                   (combine query_widths query_ratios))])
            end.
Proof.
  repeat (split; [ reflexivity | ]).
  apply (@spline_model_evaluates_the_fit float flat_fit flat_surface
           example_store (PyArr 3) (PyArr 4) (PyArr 0) (PyArr 1) (PyArr 2)
           query_widths query_ratios (Vector example_widths)
           (Vector example_ratios) (Vector example_factors));
    first [ reflexivity | discriminate ].
Defined.

(** X2.  [spline_model] takes the minimum of each of its four coordinate
    arrays before it fits: if the width data, the ratio data, the width
    query or the ratio query has no element, the call raises [ValueError],
    whatever the spline library is, and leaves the store as it was. *)
Theorem spline_model_rejects_empty_arrays
    (spline : Type)
    (fit : ndarray -> ndarray -> ndarray -> option bbox -> nat -> nat
           -> result spline)
    (surface : spline -> float -> float -> float)
    h width_test ratio_test width_data ratio_data factor_data qa qb a b :
  content h width_test = Some qa -> content h ratio_test = Some qb ->
  content h width_data = Some a -> content h ratio_data = Some b ->
  ravel qa = [] \/ ravel qb = [] \/ ravel a = [] \/ ravel b = [] ->
  spline_model fit surface
    width_test ratio_test width_data ratio_data factor_data h
  = (Raise ValueError, h).
Proof.
  intros Cwt Crt Cwd Crd Empty.
  unfold spline_model. apply bind_raise.
  unfold spline_model_bbox, bind, lift.
  rewrite (np_min_run Cwd), (np_min_run Cwt), (np_max_run Cwd),
          (np_max_run Cwt), (np_min_run Crd), (np_min_run Crt),
          (np_max_run Crd), (np_max_run Crt).
  destruct (ravel a) as [| a0 la]; [ reflexivity | ].
  destruct (ravel qa) as [| q0 lq]; [ reflexivity | ].
  destruct (ravel b) as [| b0 lb]; [ reflexivity | ].
  destruct (ravel qb) as [| p0 lp]; [ reflexivity | ].
  destruct Empty as [E | [E | [E | E]]]; discriminate.
Qed.

Lemma spline_model_rejects_empty_arrays_witness :
  content empty_store (PyArr 0) = Some (Vector [])
  /\ spline_model flat_fit flat_surface
       (PyArr 0) (PyArr 0) (PyArr 0) (PyArr 0) (PyArr 0) empty_store
     = (Raise ValueError, empty_store).
Proof.
  split; [ reflexivity | ].
  apply (@spline_model_rejects_empty_arrays float flat_fit flat_surface
           empty_store (PyArr 0) (PyArr 0) (PyArr 0) (PyArr 0) (PyArr 0)
           (Vector []) (Vector []) (Vector []) (Vector []));
    try reflexivity.
  now left.
Defined.

(** X3.  [np.min] and [np.max] propagate not-a-number: as soon as one width,
    of the data or of the query, is not-a-number, both width bounds of the
    box [spline_model] fits with are not-a-number. *)
Theorem spline_model_box_propagates_nan
    h width_test ratio_test width_data ratio_data qa qb a b :
  content h width_test = Some qa -> content h ratio_test = Some qb ->
  content h width_data = Some a -> content h ratio_data = Some b ->
  ravel qa <> [] -> ravel qb <> [] -> ravel a <> [] -> ravel b <> [] ->
  In nan (ravel a ++ ravel qa) ->
  exists yb ye,
    spline_model_bbox width_test ratio_test width_data ratio_data h
    = (Ok (nan, nan, yb, ye), h).
Proof.
  intros Cwt Crt Cwd Crd Nqa Nqb Na Nb I.
  destruct (@spline_model_bbox_total h width_test ratio_test width_data
              ratio_data a b qa qb Cwt Crt Cwd Crd Nqa Nqb Na Nb)
    as (xb & xe & yb & ye & B & (m0 & n0 & M0 & N0 & X0)
                              & (m1 & n1 & M1 & N1 & X1)).
  exists yb, ye. rewrite B. do 2 f_equal.
  assert (xb = nan /\ xe = nan) as [-> ->]; [ | reflexivity ].
  apply in_app_or in I. destruct I as [I | I].
  - rewrite (np_min_list_nan _ I) in M0.
    rewrite (np_max_list_nan _ I) in M1.
    injection M0 as <-. injection M1 as <-.
    rewrite (np_min_list_nan [nan; n0]) in X0 by (now left).
    rewrite (np_max_list_nan [nan; n1]) in X1 by (now left).
    split; congruence.
  - rewrite (np_min_list_nan _ I) in N0.
    rewrite (np_max_list_nan _ I) in N1.
    injection N0 as <-. injection N1 as <-.
    rewrite (np_min_list_nan [m0; nan]) in X0 by (right; now left).
    rewrite (np_max_list_nan [m1; nan]) in X1 by (right; now left).
    split; congruence.
Qed.

Lemma spline_model_box_propagates_nan_witness :
  In nan ([of_Z 1; nan; of_Z 3] ++ [of_Z 2])
  /\ exists yb ye,
       spline_model_bbox (PyFloat (of_Z 2)) (PyFloat (of_Z 2))
         (PyArr 0) (PyArr 1) nan_store
       = (Ok (nan, nan, yb, ye), nan_store).
Proof.
  split; [ simpl; auto | ].
  apply (@spline_model_box_propagates_nan nan_store
           (PyFloat (of_Z 2)) (PyFloat (of_Z 2)) (PyArr 0) (PyArr 1)
           (Scalar (of_Z 2)) (Scalar (of_Z 2))
           (Vector [of_Z 1; nan; of_Z 3])
           (Vector [of_Z 1; of_Z 2; of_Z 3]));
    try reflexivity; try discriminate.
  simpl. auto.
Defined.

(** ** The box of [_single_calculate_deformability] *)

Lemma py_min_list_skips_nan x xs :
  is_nan x = false ->
  py_min_list (x :: xs) = py_min_list (x :: filter number xs).
Proof.
  intros Nx. unfold py_min_list. simpl. f_equal.
  now apply fold_py_min_skips_nan.
Qed.

Lemma py_max_list_skips_nan x xs :
  is_nan x = false ->
  py_max_list (x :: xs) = py_max_list (x :: filter number xs).
Proof.
  intros Nx. unfold py_max_list. simpl. f_equal.
  now apply fold_py_max_skips_nan.
Qed.

(** X4.  The built-in [min] and [max] of lines 91-93 compare with [<] and
    [>], which not-a-number never satisfies.  When the first calibration
    point is a number, the box of [_single_calculate_deformability] is
    therefore the minimum and maximum of the values that are numbers:
    not-a-number entries of the data, or a not-a-number test point, are
    passed over (where the box of [spline_model] becomes not-a-number). *)
Theorem single_box_passes_over_nan
    h x_test y_test x_data y_data x xs y ys tx ty :
  content h x_data = Some (Vector (x :: xs)) ->
  content h y_data = Some (Vector (y :: ys)) ->
  content h x_test = Some (Scalar tx) ->
  content h y_test = Some (Scalar ty) ->
  is_nan x = false -> is_nan y = false ->
  exists xb xe yb ye,
    (ax <- np_append x_data x_test ;;
     ay <- np_append y_data y_test ;;
     single_bbox ax ay) h
    = (Ok (xb, xe, yb, ye),
       (h ++ [Vector ((x :: xs) ++ [tx])]) ++ [Vector ((y :: ys) ++ [ty])])
    /\ is_min_of xb (x :: filter number (xs ++ [tx]))
    /\ is_max_of xe (x :: filter number (xs ++ [tx]))
    /\ is_min_of yb (y :: filter number (ys ++ [ty]))
    /\ is_max_of ye (y :: filter number (ys ++ [ty])).
Proof.
  intros Cxd Cyd Cxt Cyt Nx Ny.
  set (ax := Vector ((x :: xs) ++ [tx])).
  set (ay := Vector ((y :: ys) ++ [ty])).
  destruct (@py_min_of (x :: filter number (xs ++ [tx])))
    as (xb & Exb & Hxb); [ discriminate | now apply nan_free_filter | ].
  destruct (@py_max_of (x :: filter number (xs ++ [tx])))
    as (xe & Exe & Hxe); [ discriminate | now apply nan_free_filter | ].
  destruct (@py_min_of (y :: filter number (ys ++ [ty])))
    as (yb & Eyb & Hyb); [ discriminate | now apply nan_free_filter | ].
  destruct (@py_max_of (y :: filter number (ys ++ [ty])))
    as (ye & Eye & Hye); [ discriminate | now apply nan_free_filter | ].
  exists xb, xe, yb, ye. split; [ | auto ].
  rewrite (bind_ok _ (np_append_run Cxd Cxt)).
  rewrite (bind_ok _ (np_append_run (content_app [ax] Cyd)
                                    (content_app [ax] Cyt))).
  simpl ravel. fold ax ay.
  assert (Cax : content ((h ++ [ax]) ++ [ay]) (PyArr (length h)) = Some ax)
    by apply content_app, content_alloc.
  assert (Cay : content ((h ++ [ax]) ++ [ay]) (PyArr (length (h ++ [ax])))
                = Some ay) by apply content_alloc.
  unfold single_bbox, bind, py_min, py_max.
  rewrite !(py_reduce_run _ Cax), !(py_reduce_run _ Cay).
  simpl app.
  rewrite (@py_min_list_skips_nan x (xs ++ [tx]) Nx),
          (@py_max_list_skips_nan x (xs ++ [tx]) Nx),
          (@py_min_list_skips_nan y (ys ++ [ty]) Ny),
          (@py_max_list_skips_nan y (ys ++ [ty]) Ny).
  now rewrite Exb, Exe, Eyb, Eye.
Qed.

Lemma single_box_passes_over_nan_witness :
  content nan_store (PyArr 0) = Some (Vector (of_Z 1 :: [nan; of_Z 3]))
  /\ is_nan (of_Z 1) = false
  /\ exists xb xe yb ye,
       (ax <- np_append (PyArr 0) (PyFloat (of_Z 2)) ;;
        ay <- np_append (PyArr 1) (PyFloat (of_Z 2)) ;;
        single_bbox ax ay) nan_store
       = (Ok (xb, xe, yb, ye),
          (nan_store ++ [Vector ((of_Z 1 :: [nan; of_Z 3]) ++ [of_Z 2])])
            ++ [Vector ((of_Z 1 :: [of_Z 2; of_Z 3]) ++ [of_Z 2])])
       /\ is_min_of xb (of_Z 1 :: filter number ([nan; of_Z 3] ++ [of_Z 2]))
       /\ is_max_of xe (of_Z 1 :: filter number ([nan; of_Z 3] ++ [of_Z 2]))
       /\ is_min_of yb (of_Z 1 :: filter number ([of_Z 2; of_Z 3] ++ [of_Z 2]))
       /\ is_max_of ye (of_Z 1 :: filter number ([of_Z 2; of_Z 3] ++ [of_Z 2])).
Proof.
  repeat (split; [ reflexivity | ]).
  apply (@single_box_passes_over_nan nan_store
           (PyFloat (of_Z 2)) (PyFloat (of_Z 2)) (PyArr 0) (PyArr 1)
           (of_Z 1) [nan; of_Z 3] (of_Z 1) [of_Z 2; of_Z 3]
           (of_Z 2) (of_Z 2));
    reflexivity.
Defined.

(** ** [calculate_deformability] *)

Lemma calculate_deformability_with_after single h xt yt xd yd zd d h' a :
  deformability_by_shape single xt yt xd yd zd h = (Ok d, h') ->
  content h' d = Some a ->
  calculate_deformability_with single xt yt xd yd zd h
  = (Raise (NameError "dims"), h').
Proof.
  intros B C. unfold calculate_deformability_with.
  rewrite (bind_ok _ B), (bind_ok _ (np_shape_run C)). reflexivity.
Qed.

Lemma concat_map_nil {A B : Type} (xs : list A) :
  concat (map (fun _ : A => @nil B) xs) = [].
Proof. induction xs; simpl; auto. Qed.

(** X5.  On a query with an axis of extent zero (an empty vector, a grid
    without rows or without columns) [calculate_deformability] makes no
    single-point call and never reads the ratio query or the calibration
    data: it builds an array without entries and then raises
    [NameError: dims] at its assertion, whatever the spline library is. *)
Theorem calculate_deformability_on_empty_query
    (spline : Type)
    (fit : ndarray -> ndarray -> ndarray -> option bbox -> nat -> nat
           -> result spline)
    (surface : spline -> float -> float -> float)
    h x_test y_test x_data y_data z_data q :
  content h x_test = Some q -> In 0 (shape q) ->
  exists a,
    calculate_deformability fit surface x_test y_test x_data y_data z_data h
    = (Raise (NameError "dims"), h ++ [a])
    /\ ravel a = [].
Proof.
  intros Cq Z. unfold calculate_deformability.
  destruct q as [x | xs | r c cells]; simpl in Z.
  - contradiction.
  - destruct Z as [Z | []]. destruct xs; [ | discriminate ].
    exists (Vector []). split; [ | reflexivity ].
    apply calculate_deformability_with_after with
      (d := PyArr (length h)) (a := Vector []);
      [ | apply content_alloc ].
    unfold deformability_by_shape. now rewrite (bind_ok _ (np_shape_run Cq)).
  - destruct c as [| c].
    + exists (Vector []). split; [ | reflexivity ].
      apply calculate_deformability_with_after with
        (d := PyArr (length h)) (a := Vector []);
        [ | apply content_alloc ].
      unfold deformability_by_shape.
      now rewrite (bind_ok _ (np_shape_run Cq)).
    + assert (r = 0) as -> by (destruct Z as [Z | [Z | []]]; congruence).
      exists (Matrix (S c) 0 []). split; [ | reflexivity ].
      apply calculate_deformability_with_after with
        (d := PyArr (length h)) (a := Matrix (S c) 0 []);
        [ | apply content_alloc ].
      unfold deformability_by_shape.
      rewrite (bind_ok _ (np_shape_run Cq)).
      change (shape (Matrix 0 (S c) cells)) with [0; S c]. cbv beta iota.
      erewrite bind_ok;
        [ | apply (comprehension_run _ (fun _ : nat => @nil float));
            reflexivity ].
      simpl seq. simpl map. unfold np_array2, alloc. simpl length.
      simpl concat. now rewrite length_map, length_seq, concat_map_nil.
Qed.

Lemma calculate_deformability_on_empty_query_witness :
  content empty_store (PyArr 0) = Some (Vector [])
  /\ In 0 (shape (Vector (@nil float)))
  /\ exists a,
       calculate_deformability flat_fit flat_surface
         (PyArr 0) (PyArr 0) (PyArr 0) (PyArr 0) (PyArr 0) empty_store
       = (Raise (NameError "dims"), empty_store ++ [a])
       /\ ravel a = [].
Proof.
  split; [ reflexivity | ]. split; [ now left | ].
  apply (@calculate_deformability_on_empty_query float flat_fit flat_surface
           empty_store (PyArr 0) (PyArr 0) (PyArr 0) (PyArr 0) (PyArr 0)
           (Vector []));
    [ reflexivity | now left ].
Defined.

Lemma getitem1_run h v xs i :
  content h v = Some (Vector xs) -> i < length xs ->
  getitem1 v i h = (Ok (PyFloat (nth i xs nan)), h).
Proof.
  intros C L. unfold getitem1. rewrite (bind_ok _ (read_run C)).
  now rewrite (nth_error_nth' xs nan L).
Qed.
Arguments getitem1_run {h v xs i} _ _.

Lemma getitem1_out_of_range h v xs i :
  content h v = Some (Vector xs) -> length xs <= i ->
  getitem1 v i h = (Raise IndexError, h).
Proof.
  intros C L. unfold getitem1. rewrite (bind_ok _ (read_run C)).
  apply nth_error_None in L. now rewrite L.
Qed.
Arguments getitem1_out_of_range {h v xs i} _ _.

Lemma map_nth_seq_combine {A B C : Type} (g : A -> B -> C) (da : A) (db : B) xs :
  forall ys, length xs <= length ys ->
  map (fun j => g (nth j xs da) (nth j ys db)) (seq 0 (length xs))
  = map (fun p => g (fst p) (snd p)) (combine xs ys).
Proof.
  induction xs as [| x xs IH]; intros [| y ys] L; simpl in *; auto; try lia.
  rewrite <- seq_shift, map_map. f_equal. apply IH. lia.
Qed.

(** A comprehension that fails at one item after items that return. *)
Lemma comprehension_fails {A B : Type} (body : A -> M B) (g : A -> B)
    before x after h e :
  (forall y, In y before -> body y h = (Ok (g y), h)) ->
  body x h = (Raise e, h) ->
  comprehension body (before ++ x :: after) h = (Raise e, h).
Proof.
  induction before as [| y before IH]; intros Hb Hx; simpl.
  - now apply bind_raise.
  - rewrite (bind_ok _ (Hb y (or_introl eq_refl))).
    apply bind_raise. apply IH; auto. intros z I. apply Hb. now right.
Qed.





(** ** The gated predictor and the leave-one-out loop, as they run *)

Lemma np_delete_head_run h v x xs :
  content h v = Some (Vector (x :: xs)) ->
  np_delete v 0 h = (Ok (PyArr (length h)), h ++ [Vector xs]).
Proof.
  intros C. unfold np_delete. now rewrite (bind_ok _ (read_run C)).
Qed.
Arguments np_delete_head_run {h v x xs} _.

Lemma getitem1_head_run h v x xs :
  content h v = Some (Vector (x :: xs)) ->
  getitem1 v 0 h = (Ok (PyFloat x), h).
Proof.
  intros C. unfold getitem1. now rewrite (bind_ok _ (read_run C)).
Qed.
Arguments getitem1_head_run {h v x xs} _.

Section Folds.

Variable spline : Type.
Variable fit :
  ndarray -> ndarray -> ndarray -> option bbox -> nat -> nat -> result spline.
Variable surface : spline -> float -> float -> float.

(** On a scalar query the exception of the single-point routine is the
    exception of the batched routine and of the gated predictor. *)
Lemma scalar_query_raises h xt yt xd yd zd x e h' :
  content h xt = Some (Scalar x) ->
  _single_calculate_deformability fit surface xt yt xd yd zd h
  = (Raise e, h') ->
  calculate_deformability fit surface xt yt xd yd zd h = (Raise e, h')
  /\ spline_model_with_deformability fit surface xt yt xd yd zd h
     = (Raise e, h').
Proof.
  intros Cx E.
  assert (C : calculate_deformability fit surface xt yt xd yd zd h
              = (Raise e, h')).
  { unfold calculate_deformability, calculate_deformability_with.
    apply bind_raise. unfold deformability_by_shape.
    rewrite (bind_ok _ (np_shape_run Cx)). simpl. now apply bind_raise. }
  split; [ exact C | ].
  unfold spline_model_with_deformability. now apply bind_raise.
Qed.

Lemma gated_scalar_run h xt yt xd yd zd x y cx cy cz :
  content h xt = Some (Scalar x) -> content h yt = Some (Scalar y) ->
  content h xd = Some cx -> content h yd = Some cy -> content h zd = Some cz ->
  exists xb xe yb ye,
    py_min_list (ravel cx ++ [x]) = Ok xb
    /\ py_max_list (ravel cx ++ [x]) = Ok xe
    /\ py_min_list (ravel cy ++ [y]) = Ok yb
    /\ py_max_list (ravel cy ++ [y]) = Ok ye
    /\ spline_model_with_deformability fit surface xt yt xd yd zd h
       = let h2 := (h ++ [Vector (ravel cx ++ [x])])
                     ++ [Vector (ravel cy ++ [y])] in
         match fit cx cy cz (Some (xb, xe, yb, ye)) 2 1 with
         | Raise e => (Raise e, h2)
         | Ok s =>
             (Raise (NameError "initial_fit"),
              h2 ++ [Scalar (surface s x y)])
         end.
Proof.
  intros Cxt Cyt Cxd Cyd Czd.
  destruct (@single_run spline fit surface h xt yt xd yd zd x y cx cy cz
              Cxt Cyt Cxd Cyd Czd)
    as (xb & xe & yb & ye & Exb & Exe & Eyb & Eye & Run).
  exists xb, xe, yb, ye. repeat (split; [ assumption | ]).
  cbv zeta in *.
  match goal with
  | |- context [fit ?a ?b ?c ?bx ?kx ?ky] =>
      destruct (fit a b c bx kx ky) as [s | e]
  end; exact (proj2 (@scalar_query_raises h xt yt xd yd zd x _ _ Cxt Run)).
Qed.

Lemma percent_first_fold h wd rd fd n e h' :
  py_len wd h = (Ok (S n), h) ->
  (wi <- getitem1 wd 0 ;;
   ri <- getitem1 rd 0 ;;
   wd' <- np_delete wd 0 ;;
   rd' <- np_delete rd 0 ;;
   fd' <- np_delete fd 0 ;;
   spline_model_with_deformability fit surface wi ri wd' rd' fd') h
  = (Raise e, h') ->
  calculate_percent_prediction_differences fit surface wd rd fd h
  = (Raise e, h').
Proof.
  intros L E. unfold calculate_percent_prediction_differences.
  rewrite (bind_ok _ L). apply bind_raise. simpl seq. simpl comprehension.
  now apply bind_raise.
Qed.

End Folds.

(** X8.  On a scalar query [spline_model_with_deformability] ends where
    [_single_calculate_deformability] ends: a baseline fit that fails passes
    its exception on unchanged, a baseline fit that succeeds is followed by
    [NameError: initial_fit].  In both cases the store holds, beside what it
    held, only the two arrays of line 88-89 (and the baseline value): the
    prediction of line 201 is never computed. *)
Theorem gated_predictor_on_scalar_query
    (spline : Type)
    (fit : ndarray -> ndarray -> ndarray -> option bbox -> nat -> nat
           -> result spline)
    (surface : spline -> float -> float -> float)
    h width_test ratio_test width_data ratio_data factor_data x y cx cy cz :
  content h width_test = Some (Scalar x) ->
  content h ratio_test = Some (Scalar y) ->
  content h width_data = Some cx -> content h ratio_data = Some cy ->
  content h factor_data = Some cz ->
  exists xb xe yb ye,
    py_min_list (ravel cx ++ [x]) = Ok xb
    /\ py_max_list (ravel cx ++ [x]) = Ok xe
    /\ py_min_list (ravel cy ++ [y]) = Ok yb
    /\ py_max_list (ravel cy ++ [y]) = Ok ye
    /\ spline_model_with_deformability fit surface
         width_test ratio_test width_data ratio_data factor_data h
       = let h2 := (h ++ [Vector (ravel cx ++ [x])])
                     ++ [Vector (ravel cy ++ [y])] in
         match fit cx cy cz (Some (xb, xe, yb, ye)) 2 1 with
         | Raise e => (Raise e, h2)
         | Ok s =>
             (Raise (NameError "initial_fit"),
              h2 ++ [Scalar (surface s x y)])
         end.
Proof. apply gated_scalar_run. Qed.

Lemma gated_predictor_on_scalar_query_witness :
  content example_store (PyFloat (of_Z 9)) = Some (Scalar (of_Z 9))
  /\ content example_store (PyArr 0) = Some (Vector example_widths)
  /\ exists xb xe yb ye,
       py_min_list (example_widths ++ [of_Z 9]) = Ok xb
       /\ py_max_list (example_widths ++ [of_Z 9]) = Ok xe
       /\ py_min_list (example_ratios ++ [of_Z 4]) = Ok yb
       /\ py_max_list (example_ratios ++ [of_Z 4]) = Ok ye
       /\ spline_model_with_deformability flat_fit flat_surface
            (PyFloat (of_Z 9)) (PyFloat (of_Z 4))
            (PyArr 0) (PyArr 1) (PyArr 2) example_store
          = let h2 := (example_store ++ [Vector (example_widths ++ [of_Z 9])])
                        ++ [Vector (example_ratios ++ [of_Z 4])] in
            match flat_fit (Vector example_widths) (Vector example_ratios)
                    (Vector example_factors) (Some (xb, xe, yb, ye)) 2 1 with
            | Raise e => (Raise e, h2)
            | Ok s =>
                (Raise (NameError "initial_fit"),
                 h2 ++ [Scalar (flat_surface s (of_Z 9) (of_Z 4))])
            end.
Proof.
  split; [ reflexivity | ]. split; [ reflexivity | ].
  apply (@gated_predictor_on_scalar_query float flat_fit flat_surface
           example_store (PyFloat (of_Z 9)) (PyFloat (of_Z 4))
           (PyArr 0) (PyArr 1) (PyArr 2) (of_Z 9) (of_Z 4)
           (Vector example_widths) (Vector example_ratios)
           (Vector example_factors));
    reflexivity.
Defined.



(** X10.  On an empty width array the leave-one-out loop has no fold and
    the spline library is not called; the ratio array is never read.  Line
    220 then broadcasts the factors against an empty list: with at most one
    factor the call returns a new empty vector, with two or more it raises
    [ValueError] and the store is as before. *)
Theorem empty_width_array_skips_the_folds
    (spline : Type)
    (fit : ndarray -> ndarray -> ndarray -> option bbox -> nat -> nat
           -> result spline)
    (surface : spline -> float -> float -> float)
    h width_data ratio_data factor_data fs :
  content h width_data = Some (Vector []) ->
  content h factor_data = Some (Vector fs) ->
  (length fs <= 1 ->
   calculate_percent_prediction_differences fit surface
     width_data ratio_data factor_data h
   = (Ok (PyArr (length ((h ++ [Vector []]) ++ [Vector []]))),
      ((h ++ [Vector []]) ++ [Vector []]) ++ [Vector []]))
  /\ (2 <= length fs ->
      calculate_percent_prediction_differences fit surface
        width_data ratio_data factor_data h
      = (Raise ValueError, h)).
Proof.
  intros Cw Cf.
  assert (Start :
             calculate_percent_prediction_differences fit surface
               width_data ratio_data factor_data h
             = (diff <- arith sub (read factor_data) (asarray []) ;;
                scaled <- arith mul (ret (Scalar lit_100)) (read diff) ;;
                arith div (read scaled) (read factor_data)) h).
  { unfold calculate_percent_prediction_differences.
    now rewrite (bind_ok _ (py_len_run Cw)). }
  rewrite Start. clear Start.
  split; intros L.
  - assert (B1 : broadcast2 nan nan nan sub (Vector fs) (Vector [])
                 = Ok (Vector [])).
    { destruct fs as [| f [| g fs]]; try reflexivity. simpl in L. lia. }
    assert (B3 : broadcast2 nan nan nan div (Vector []) (Vector fs)
                 = Ok (Vector [])).
    { destruct fs as [| f [| g fs]]; try reflexivity. simpl in L. lia. }
    rewrite (bind_ok _ (@arith_run sub (read factor_data) (asarray []) h
                          (Vector fs) (Vector []) (Vector [])
                          (read_run Cf) eq_refl B1 ltac:(discriminate))).
    rewrite (bind_ok _ (@arith_run mul (ret (Scalar lit_100))
                          (read (PyArr (length h))) (h ++ [Vector []])
                          (Scalar lit_100) (Vector []) (Vector []) eq_refl
                          (read_run (content_alloc h (Vector [])))
                          eq_refl ltac:(discriminate))).
    apply (@arith_run div (read (PyArr (length (h ++ [Vector []]))))
             (read factor_data) ((h ++ [Vector []]) ++ [Vector []])
             (Vector []) (Vector fs) (Vector [])).
    + apply read_run, content_alloc.
    + apply read_run. now do 2 apply content_app.
    + exact B3.
    + discriminate.
  - apply bind_raise. unfold arith.
    rewrite (bind_ok _ (read_run Cf)).
    rewrite (@bind_ok _ _ (asarray []) _ h (Vector []) h eq_refl).
    destruct fs as [| f [| g fs]]; simpl in L; try lia. reflexivity.
Qed.

Lemma empty_width_array_skips_the_folds_witness :
  content empty_store (PyArr 0) = Some (Vector [])
  /\ content example_store (PyArr 3) = Some (Vector query_widths)
  /\ calculate_percent_prediction_differences flat_fit flat_surface
       (PyArr 0) (PyArr 0) (PyArr 0) empty_store
     = (Ok (PyArr 3), [Vector []; Vector []; Vector []; Vector []]).
Proof.
  split; [ reflexivity | ]. split; [ reflexivity | ].
  apply (proj1 (@empty_width_array_skips_the_folds float flat_fit flat_surface
                  empty_store (PyArr 0) (PyArr 0) (PyArr 0) []
                  eq_refl eq_refl)).
  simpl. lia.
Defined.

(** X11.  The three calibration arrays are never compared in length.  With
    a width array that has a point and a ratio or a factor array that has
    none, the first fold raises [IndexError]: at [ratio_perim_area_data[0]]
    (line 214), or at [np.delete(factor_data, 0)] (line 216). *)
Theorem missing_ratio_or_factor_raises_index_error
    (spline : Type)
    (fit : ndarray -> ndarray -> ndarray -> option bbox -> nat -> nat
           -> result spline)
    (surface : spline -> float -> float -> float)
    h width_data ratio_data factor_data w0 ws rs fs :
  content h width_data = Some (Vector (w0 :: ws)) ->
  content h ratio_data = Some (Vector rs) ->
  content h factor_data = Some (Vector fs) ->
  rs = [] \/ fs = [] ->
  exists h',
    calculate_percent_prediction_differences fit surface
      width_data ratio_data factor_data h
    = (Raise IndexError, h').
Proof.
  intros Cw Cr Cf Missing.
  destruct rs as [| r0 rs].
  - exists h.
    apply (@percent_first_fold spline fit surface h width_data ratio_data
             factor_data (length ws) IndexError h (py_len_run Cw)).
    rewrite (bind_ok _ (getitem1_head_run Cw)).
    apply bind_raise. apply (getitem1_out_of_range Cr). simpl. lia.
  - destruct Missing as [E | ->]; [ discriminate | ].
    exists ((h ++ [Vector ws]) ++ [Vector rs]).
    apply (@percent_first_fold spline fit surface h width_data ratio_data
             factor_data (length ws) IndexError _ (py_len_run Cw)).
    rewrite (bind_ok _ (getitem1_head_run Cw)).
    rewrite (bind_ok _ (getitem1_head_run Cr)).
    rewrite (bind_ok _ (np_delete_head_run Cw)).
    rewrite (bind_ok _ (np_delete_head_run (content_app [Vector ws] Cr))).
    apply bind_raise. unfold np_delete.
    now rewrite (bind_ok _ (read_run (content_app [Vector rs]
                                        (content_app [Vector ws] Cf)))).
Qed.

Lemma missing_ratio_or_factor_raises_index_error_witness :
  content example_store (PyArr 0)
  = Some (Vector (of_Z 2 :: map of_Z [4; 6; 8; 10; 12; 14; 16]%Z))
  /\ content (example_store ++ [Vector []]) (PyArr 8) = Some (Vector [])
  /\ exists h',
       calculate_percent_prediction_differences flat_fit flat_surface
         (PyArr 0) (PyArr 1) (PyArr 8) (example_store ++ [Vector []])
       = (Raise IndexError, h').
Proof.
  split; [ reflexivity | ]. split; [ reflexivity | ].
  apply (@missing_ratio_or_factor_raises_index_error float flat_fit
           flat_surface (example_store ++ [Vector []])
           (PyArr 0) (PyArr 1) (PyArr 8)
           (of_Z 2) (map of_Z [4; 6; 8; 10; 12; 14; 16]%Z)
           example_ratios []);
    try reflexivity.
  now right.
Defined.

(** ** Lines 201-207 and line 220 as statements *)

Lemma nth_error_map_combine {A B C : Type} (g : A * B -> C) xs : forall ys i x y,
  nth_error xs i = Some x -> nth_error ys i = Some y ->
  nth_error (map g (combine xs ys)) i = Some (g (x, y)).
Proof.
  induction xs as [| a xs IH]; intros [| b ys] [| i] x y Hx Hy;
    simpl in *; try discriminate.
  - congruence.
  - now apply IH.
Qed.

(** X12.  The statements of lines 201-207, from a store in which
    [deformability] names an array of the shape of the prediction that
    [spline_model] returns: the result is that prediction, in the array
    [spline_model] allocated, with not-a-number written exactly at the
    positions whose score compares greater than 0.5.  A score of exactly 0.5
    keeps its prediction, and so does a score that is not-a-number, since
    [nan > 0.5] is false. *)
Theorem gate_masks_scores_above_threshold
    (spline : Type)
    (fit : ndarray -> ndarray -> ndarray -> option bbox -> nat -> nat
           -> result spline)
    (surface : spline -> float -> float -> float)
    h deformability width_test ratio_test width_data ratio_data factor_data
    scores prediction :
  content h deformability = Some scores ->
  spline_model fit surface
    width_test ratio_test width_data ratio_data factor_data h
  = (Ok (PyArr (length h)), h ++ [prediction]) ->
  shape scores = shape prediction ->
  exists masked,
    (model_factor <- spline_model fit surface
                       width_test ratio_test width_data ratio_data
                       factor_data ;;
     mask <- np_gt deformability lit_0_5 ;;
     setitem_mask model_factor mask nan ;;
     ret model_factor) h
    = (Ok (PyArr (length h)), h ++ [masked])
    /\ shape masked = shape prediction
    /\ (forall i s p,
           nth_error (ravel scores) i = Some s ->
           nth_error (ravel prediction) i = Some p ->
           nth_error (ravel masked) i
           = Some (if ltb lit_0_5 s then nan else p))
    /\ ltb lit_0_5 lit_0_5 = false
    /\ ltb lit_0_5 nan = false.
Proof.
  intros Cd E Sh.
  destruct (@gate_masks spline fit surface h deformability width_test
              ratio_test width_data ratio_data factor_data scores prediction
              Cd E Sh) as (masked & Run & Shm & Rv).
  exists masked. repeat (split; [ assumption | ]).
  split; [ | split; reflexivity ].
  intros i s p Hs Hp. rewrite Rv.
  exact (nth_error_map_combine
           (fun q => if ltb lit_0_5 (fst q) then nan else snd q)
           (ravel scores) (ravel prediction) i Hs Hp).
Qed.

Lemma gate_masks_scores_above_threshold_witness :
  content scored_store (PyArr 8) = Some (Vector [of_Z 0; of_Z 1])
  /\ spline_model flat_fit flat_surface
       (PyArr 3) (PyArr 4) (PyArr 0) (PyArr 1) (PyArr 2) scored_store
     = (Ok (PyArr (length scored_store)),
        scored_store ++ [Vector [of_Z 1; of_Z 1]])
  /\ exists masked,
       (model_factor <- spline_model flat_fit flat_surface
                          (PyArr 3) (PyArr 4) (PyArr 0) (PyArr 1) (PyArr 2) ;;
        mask <- np_gt (PyArr 8) lit_0_5 ;;
        setitem_mask model_factor mask nan ;;
        ret model_factor) scored_store
       = (Ok (PyArr (length scored_store)), scored_store ++ [masked])
       /\ nth_error (ravel masked) 0 = Some (of_Z 1)
       /\ nth_error (ravel masked) 1 = Some nan.
Proof.
  split; [ reflexivity | ]. split; [ vm_compute; reflexivity | ].
  destruct (@gate_masks_scores_above_threshold float flat_fit flat_surface
              scored_store (PyArr 8) (PyArr 3) (PyArr 4)
              (PyArr 0) (PyArr 1) (PyArr 2)
              (Vector [of_Z 0; of_Z 1]) (Vector [of_Z 1; of_Z 1])
              eq_refl ltac:(vm_compute; reflexivity) eq_refl)
    as (masked & Run & _ & Pos & _).
  exists masked. split; [ exact Run | ]. split.
  - exact (Pos 0 (of_Z 0) (of_Z 1) eq_refl eq_refl).
  - exact (Pos 1 (of_Z 1) (of_Z 1) eq_refl eq_refl).
Defined.

(** X13.  The expression of line 220, given the factors in a vector of
    length [n] and a list of [n] scalar predictions: two temporaries and the
    result are allocated, the factors are not written, and entry [i] of the
    result is [100 * (factor_data[i] - predictions[i]) / factor_data[i]] in
    binary64 arithmetic.  An entry is not-a-number where the prediction is,
    and is not finite where the factor is zero. *)
Theorem line_220_is_the_percent_difference
    h factor_data predictions fs ps :
  content h factor_data = Some (Vector fs) ->
  Forall2 (fun v p => content h v = Some (Scalar p)) predictions ps ->
  length fs = length ps ->
  (exists d1 d2,
      (diff <- arith sub (read factor_data) (asarray predictions) ;;
       scaled <- arith mul (ret (Scalar lit_100)) (read diff) ;;
       arith div (read scaled) (read factor_data)) h
      = (Ok (PyArr (length ((h ++ [d1]) ++ [d2]))),
         ((h ++ [d1]) ++ [d2])
           ++ [Vector (map (fun q => percent_difference (fst q) (snd q))
                           (combine fs ps))]))
  /\ (forall f, percent_difference f nan = nan)
  /\ (forall s p, is_finite (percent_difference (S754_zero s) p) = false).
Proof.
  intros Cf F L. split; [ | split ].
  - exact (@line_220_run h factor_data predictions fs ps Cf F L).
  - apply percent_difference_of_nan.
  - apply percent_difference_zero_factor.
Qed.

Lemma line_220_is_the_percent_difference_witness :
  content example_store (PyArr 4) = Some (Vector query_ratios)
  /\ length query_ratios = length [of_Z 1; nan]
  /\ exists d1 d2,
       (diff <- arith sub (read (PyArr 4))
                  (asarray [PyFloat (of_Z 1); PyFloat nan]) ;;
        scaled <- arith mul (ret (Scalar lit_100)) (read diff) ;;
        arith div (read scaled) (read (PyArr 4))) example_store
       = (Ok (PyArr (length ((example_store ++ [d1]) ++ [d2]))),
          ((example_store ++ [d1]) ++ [d2])
            ++ [Vector (map (fun q => percent_difference (fst q) (snd q))
                            (combine query_ratios [of_Z 1; nan]))]).
Proof.
  split; [ reflexivity | ]. split; [ reflexivity | ].
  apply (proj1 (@line_220_is_the_percent_difference example_store (PyArr 4)
                  [PyFloat (of_Z 1); PyFloat nan] query_ratios
                  [of_Z 1; nan] eq_refl
                  ltac:(repeat constructor) eq_refl)).
Defined.
